(** * Synthetic source (sdks/go/pkg/beam/io/synthetic/source.go)

    A shallow embedding of the synthetic source of the Go SDK: the
    [SourceConfig] record and its builder, the JSON constructor, the initial
    splitting of the restriction and the claim-and-emit loop of
    [ProcessElement].

    Conventions.
    - An [int64] is a [Z]; where the source does arithmetic that can leave the
      64-bit range the wrap-around is written with [wrap64].
    - A [float64] is a primitive binary64 float; the source only compares
      floats, with [<] and [>].
    - A [[]byte] is a [list byte].
    - The builder is used through a pointer ([*SourceConfigBuilder]); the
      pointers live in a heap, a finite map from locations to builders.
    - A panic and a returned [error] are values of the result types.
    - What the Go runtime decides is a parameter: the largest slice that
      [make] allocates is the [maxAlloc] of a [Platform]. *)

From Stdlib Require Import ZArith List String Ascii Bool Lia PrimFloat.
From Stdlib.Floats Require SpecFloat FloatOps FloatAxioms.
From Stdlib.Strings Require Byte.
From stdpp Require Import base option list gmap strings.

Set Warnings "-register-all".

Open Scope Z_scope.

(** ** Machine integers *)

Definition min_int64 : Z := - 2 ^ 63.
Definition max_int64 : Z := 2 ^ 63 - 1.

Definition in_int64 (z : Z) : Prop := min_int64 <= z <= max_int64.

Definition in_int64b (z : Z) : bool := (min_int64 <=? z) && (z <=? max_int64).

(** Two's complement wrap-around of a 64-bit signed integer. *)
Definition wrap64 (z : Z) : Z := (z + 2 ^ 63) mod 2 ^ 64 - 2 ^ 63.

(** ** SourceConfig *)

(** [type SourceConfig struct]: five [int64] fields and one [float64]. *)
Record SourceConfig : Type := mkSourceConfig {
  NumElements : Z;
  InitialSplits : Z;
  KeySize : Z;
  ValueSize : Z;
  NumHotKeys : Z;
  HotKeyFraction : float
}.

(** The fields, with the names the source gives them in Go and in JSON. *)
Inductive Field : Type :=
  | FNumElements | FInitialSplits | FKeySize | FValueSize
  | FNumHotKeys | FHotKeyFraction.

Definition goName (f : Field) : string :=
  match f with
  | FNumElements => "NumElements"
  | FInitialSplits => "InitialSplits"
  | FKeySize => "KeySize"
  | FValueSize => "ValueSize"
  | FNumHotKeys => "NumHotKeys"
  | FHotKeyFraction => "HotKeyFraction"
  end.

(** The [json:"..."] tags of the struct. *)
Definition jsonTag (f : Field) : string :=
  match f with
  | FNumElements => "num_records"
  | FInitialSplits => "initial_splits"
  | FKeySize => "key_size"
  | FValueSize => "value_size"
  | FNumHotKeys => "num_hot_keys"
  | FHotKeyFraction => "hot_key_fraction"
  end.

Definition allFields : list Field :=
  [FNumElements; FInitialSplits; FKeySize; FValueSize; FNumHotKeys; FHotKeyFraction].

(** A Go value handed to [fmt.Sprintf] through [%v]. *)
Inductive GoValue : Type :=
  | VInt64 (z : Z)
  | VFloat64 (x : float).

Definition fieldValue (f : Field) (c : SourceConfig) : GoValue :=
  match f with
  | FNumElements => VInt64 (NumElements c)
  | FInitialSplits => VInt64 (InitialSplits c)
  | FKeySize => VInt64 (KeySize c)
  | FValueSize => VInt64 (ValueSize c)
  | FNumHotKeys => VInt64 (NumHotKeys c)
  | FHotKeyFraction => VFloat64 (HotKeyFraction c)
  end.

(** The bounds the builder's documentation gives for each field:
    [1, ...] for the first four, [0, ...] for [NumHotKeys], and 0 to 1 for
    [HotKeyFraction]. *)
Definition inBounds (f : Field) (c : SourceConfig) : bool :=
  match f with
  | FNumElements => 1 <=? NumElements c
  | FInitialSplits => 1 <=? InitialSplits c
  | FKeySize => 1 <=? KeySize c
  | FValueSize => 1 <=? ValueSize c
  | FNumHotKeys => 0 <=? NumHotKeys c
  | FHotKeyFraction =>
      PrimFloat.leb 0%float (HotKeyFraction c) && PrimFloat.leb (HotKeyFraction c) 1%float
  end.

Definition validConfig (c : SourceConfig) : bool :=
  forallb (fun f => inBounds f c) allFields.

(** ** SourceConfigBuilder *)

(** [type SourceConfigBuilder struct { cfg SourceConfig }] *)
Record SourceConfigBuilder : Type := mkBuilder { cfg : SourceConfig }.

(** Builders are handled through pointers. *)
Definition loc : Type := positive.
Abbreviation heap := (gmap loc SourceConfigBuilder).

(** A message built by [fmt.Sprintf(format, arg)] with one [%v] verb: the
    format and the argument, not rendered. *)
Inductive Message : Type :=
  | Sprintf (format : string) (arg : GoValue)
  | SprintfErr (format : string) (err : string).

(** What a call does: it returns, or it panics. *)
Inductive Outcome (A : Type) : Type :=
  | Returns (a : A)
  | Panics (m : Message).
Arguments Returns {A} a.
Arguments Panics {A} m.

Definition nilDereference : Message :=
  SprintfErr "%v" "invalid memory address or nil pointer dereference".

(** [DefaultSourceConfig]: a new builder holding the defaults. *)
Definition defaultConfig : SourceConfig :=
  {| NumElements := 1; InitialSplits := 1; KeySize := 8; ValueSize := 8;
     NumHotKeys := 0; HotKeyFraction := 0%float |}.

Definition DefaultSourceConfig (h : heap) : loc * heap :=
  let b := fresh (dom h) in (b, <[b := mkBuilder defaultConfig]> h).

(** The assignments [b.cfg.F = v]. *)
Definition setNumElements (v : Z) (c : SourceConfig) : SourceConfig :=
  {| NumElements := v; InitialSplits := InitialSplits c; KeySize := KeySize c;
     ValueSize := ValueSize c; NumHotKeys := NumHotKeys c;
     HotKeyFraction := HotKeyFraction c |}.
Definition setInitialSplits (v : Z) (c : SourceConfig) : SourceConfig :=
  {| NumElements := NumElements c; InitialSplits := v; KeySize := KeySize c;
     ValueSize := ValueSize c; NumHotKeys := NumHotKeys c;
     HotKeyFraction := HotKeyFraction c |}.
Definition setKeySize (v : Z) (c : SourceConfig) : SourceConfig :=
  {| NumElements := NumElements c; InitialSplits := InitialSplits c; KeySize := v;
     ValueSize := ValueSize c; NumHotKeys := NumHotKeys c;
     HotKeyFraction := HotKeyFraction c |}.
Definition setValueSize (v : Z) (c : SourceConfig) : SourceConfig :=
  {| NumElements := NumElements c; InitialSplits := InitialSplits c;
     KeySize := KeySize c; ValueSize := v; NumHotKeys := NumHotKeys c;
     HotKeyFraction := HotKeyFraction c |}.
Definition setNumHotKeys (v : Z) (c : SourceConfig) : SourceConfig :=
  {| NumElements := NumElements c; InitialSplits := InitialSplits c;
     KeySize := KeySize c; ValueSize := ValueSize c; NumHotKeys := v;
     HotKeyFraction := HotKeyFraction c |}.
Definition setHotKeyFraction (v : float) (c : SourceConfig) : SourceConfig :=
  {| NumElements := NumElements c; InitialSplits := InitialSplits c;
     KeySize := KeySize c; ValueSize := ValueSize c; NumHotKeys := NumHotKeys c;
     HotKeyFraction := v |}.

(** The setters and the terminal operations, as methods of a pointer
    [b : *SourceConfigBuilder]: each takes the heap and gives the heap back. *)
Module Builder.

(** [Build], on the builder's configuration: the six checks in the order of
    the source, each with the format and the argument it passes to
    [fmt.Sprintf]. *)
Definition check (c : SourceConfig) : Outcome SourceConfig :=
  if InitialSplits c <=? 0 then
    Panics (Sprintf "SourceConfig.InitialSplits must be >= 1. Got: %v"
              (VInt64 (InitialSplits c)))
  else if NumElements c <=? 0 then
    Panics (Sprintf "SourceConfig.NumElements must be >= 1. Got: %v"
              (VInt64 (NumElements c)))
  else if KeySize c <=? 0 then
    Panics (Sprintf "SourceConfig.KeySize must be >= 1. Got: %v"
              (VInt64 (KeySize c)))
  else if ValueSize c <=? 0 then
    Panics (Sprintf "SourceConfig.ValueSize must be >= 1. Got: %v"
              (VInt64 (ValueSize c)))
  else if NumHotKeys c <? 0 then
    Panics (Sprintf "SourceConfig.NumHotKeys must be >= 0. Got: %v"
              (VFloat64 (HotKeyFraction c)))
  else if PrimFloat.ltb (HotKeyFraction c) 0%float
          || PrimFloat.ltb 1%float (HotKeyFraction c) then
    Panics (Sprintf
              "SourceConfig.HotKeyFraction must be a floating point number from 0 and 1. Got: %v"
              (VInt64 (NumHotKeys c)))
  else Returns c.

Definition Build (b : loc) (h : heap) : Outcome SourceConfig :=
  match h !! b with
  | Some s => check (cfg s)
  | None => Panics nilDereference
  end.

(** [b.cfg.F = ...; return b]: the store is made through the pointer, and
    the pointer itself is returned.  The conversion [int64(val)] of an [int]
    keeps the value. *)
Definition assign (upd : SourceConfig -> SourceConfig) (b : loc) (h : heap)
  : Outcome loc * heap :=
  match h !! b with
  | Some s => (Returns b, <[b := mkBuilder (upd (cfg s))]> h)
  | None => (Panics nilDereference, h)
  end.

Definition NumElements (b : loc) (val : Z) := assign (setNumElements val) b.
Definition InitialSplits (b : loc) (val : Z) := assign (setInitialSplits val) b.
Definition KeySize (b : loc) (val : Z) := assign (setKeySize val) b.
Definition ValueSize (b : loc) (val : Z) := assign (setValueSize val) b.
Definition NumHotKeys (b : loc) (val : Z) := assign (setNumHotKeys val) b.
Definition HotKeyFraction (b : loc) (val : float) := assign (setHotKeyFraction val) b.

End Builder.

(** ** encoding/json, as far as [BuildFromJSON] uses it *)

(** A JSON number literal: written as an integer ([IntLit], its value), or
    with a fraction or an exponent ([RealLit], the binary64 that
    [strconv.ParseFloat] reads from it; an infinity stands for a literal out
    of the range of [float64]). *)
Inductive Number : Type :=
  | IntLit (z : Z)
  | RealLit (x : float).

Inductive JSON : Type :=
  | JNull
  | JBool (b : bool)
  | JNumber (n : Number)
  | JString (s : string)
  | JArray (elems : list JSON)
  | JObject (members : list (string * JSON)).

(** What [json.NewDecoder(bytes.NewReader(jsonData))] reads: the first JSON
    value of the input, or a syntax error when the input does not begin with
    a complete JSON value. *)
Inductive Document : Type :=
  | SyntaxError
  | Value (v : JSON).

Inductive DecodeError : Type :=
  | ESyntax
  | EUnknownField (key : string)
  | EUnmarshalType (f : option Field).

#[global] Instance Field_eq_dec : EqDecision Field.
Proof. solve_decision. Defined.

(** Object keys are matched to the struct's tags as encoding/json folds
    names.  ASCII letters are folded to upper case.  Of the other runes, two
    have a case folding that leads to an ASCII letter: U+017F (long s, the
    bytes C5 BF) folds to S and U+212A (Kelvin sign, the bytes E2 84 AA) to
    K.  Every other rune folds to a rune outside ASCII, which no tag
    contains, and its bytes are left as they are.  An exact match is a
    match. *)
Definition toUpper (a : ascii) : ascii :=
  let n := N_of_ascii a in
  if ((97 <=? n) && (n <=? 122))%N then ascii_of_N (n - 32) else a.

Definition isByte (a : ascii) (n : N) : bool := (N_of_ascii a =? n)%N.

Fixpoint foldName (s : string) : string :=
  match s with
  | EmptyString => EmptyString
  | String a s1 =>
      match s1 with
      | EmptyString => String (toUpper a) EmptyString
      | String b s2 =>
          if isByte a 197 && isByte b 191 then String "S" (foldName s2)
          else
            match s2 with
            | EmptyString => String (toUpper a) (foldName s1)
            | String c s3 =>
                if isByte a 226 && isByte b 132 && isByte c 170
                then String "K" (foldName s3)
                else String (toUpper a) (foldName s1)
            end
      end
  end.

Definition fieldOfKey (key : string) : option Field :=
  List.find (fun f => String.eqb (foldName (jsonTag f)) (foldName key)) allFields.

(** The binary64 nearest to an integer. *)
Definition float64_of_Z (z : Z) : float :=
  FloatOps.SF2Prim (SpecFloat.binary_normalize FloatOps.prec FloatOps.emax z 0 false).

Definition isFinite (x : float) : bool :=
  negb (PrimFloat.is_nan x || PrimFloat.is_infinity x).

(** Storing one JSON value into one field.  [null] leaves the field as it
    is; an [int64] field takes an integer literal that fits in 64 bits; the
    [float64] field takes any number in range.  Anything else is an
    [UnmarshalTypeError] and leaves the field as it is. *)
Definition storeField (f : Field) (v : JSON) (c : SourceConfig)
  : SourceConfig * option DecodeError :=
  let int64Field (set : Z -> SourceConfig -> SourceConfig) :=
    match v with
    | JNull => (c, None)
    | JNumber (IntLit z) =>
        if in_int64b z then (set z c, None) else (c, Some (EUnmarshalType (Some f)))
    | _ => (c, Some (EUnmarshalType (Some f)))
    end in
  match f with
  | FNumElements => int64Field setNumElements
  | FInitialSplits => int64Field setInitialSplits
  | FKeySize => int64Field setKeySize
  | FValueSize => int64Field setValueSize
  | FNumHotKeys => int64Field setNumHotKeys
  | FHotKeyFraction =>
      match v with
      | JNull => (c, None)
      | JNumber (IntLit z) =>
          if isFinite (float64_of_Z z) then (setHotKeyFraction (float64_of_Z z) c, None)
          else (c, Some (EUnmarshalType (Some f)))
      | JNumber (RealLit x) =>
          if isFinite x then (setHotKeyFraction x c, None)
          else (c, Some (EUnmarshalType (Some f)))
      | _ => (c, Some (EUnmarshalType (Some f)))
      end
  end.

(** One member of the object, with [DisallowUnknownFields]. *)
Definition decodeMember (m : string * JSON) (c : SourceConfig)
  : SourceConfig * option DecodeError :=
  match fieldOfKey (fst m) with
  | Some f => storeField f (snd m) c
  | None => (c, Some (EUnknownField (fst m)))
  end.

(** The members are stored in the order of the document; the decoder goes on
    after an error and reports the first one at the end. *)
Fixpoint decodeMembers (ms : list (string * JSON)) (c : SourceConfig)
  : SourceConfig * option DecodeError :=
  match ms with
  | [] => (c, None)
  | m :: ms' =>
      let (c1, e1) := decodeMember m c in
      let (c2, e2) := decodeMembers ms' c1 in
      (c2, match e1 with Some e => Some e | None => e2 end)
  end.

(** [decoder.Decode(&b.cfg)] *)
Definition Decode (doc : Document) (c : SourceConfig) : SourceConfig * option DecodeError :=
  match doc with
  | SyntaxError => (c, Some ESyntax)
  | Value JNull => (c, None)
  | Value (JObject ms) => decodeMembers ms c
  | Value _ => (c, Some (EUnmarshalType None))
  end.

Definition errorText (e : DecodeError) : string :=
  match e with
  | ESyntax => "syntax error"
  | EUnknownField key => "json: unknown field " ++ key
  | EUnmarshalType _ => "json: cannot unmarshal value into Go value"
  end.

(** [BuildFromJSON]: decode into the builder's own configuration, panic on a
    decoding error, return the configuration otherwise. *)
Definition BuildFromJSON (b : loc) (jsonData : Document) (h : heap)
  : Outcome SourceConfig * heap :=
  match h !! b with
  | None => (Panics nilDereference, h)
  | Some s =>
      let (c, err) := Decode jsonData (cfg s) in
      let h' := <[b := mkBuilder c]> h in
      match err with
      | Some e => (Panics (SprintfErr "Could not unmarshal SourceConfig: %v" (errorText e)), h')
      | None => (Returns c, h')
      end
  end.

(** ** Restrictions and the initial split *)

(** [offsetrange.Restriction]: the half-open range of indices from [Start]
    to [End]. *)
Record Restriction : Type := mkRestriction { Start : Z; End : Z }.

Definition size (r : Restriction) : Z := End r - Start r.

(** Modelled from the spec: [offsetrange.Restriction.EvenSplits] is not among
    the sources.  Section 4.2 asks for an ordered sequence of sub-ranges,
    pairwise disjoint, covering the range, none empty, of sizes that differ by
    at most one, and no more of them than the range has elements.  Here the
    [i]-th of [num] pieces runs from [Start + i*size/num] to
    [Start + (i+1)*size/num], the empty pieces are left out, and a [num] of 1
    or less gives the range itself. *)
Definition piece (r : Restriction) (num i : Z) : Restriction :=
  {| Start := Start r + (i * size r) ÷ num;
     End := Start r + ((i + 1) * size r) ÷ num |}.

Definition EvenSplits (r : Restriction) (num : Z) : list Restriction :=
  if num <=? 1 then [r]
  else List.filter (fun s => 0 <? size s) (piece r num <$> seqZ 0 num).

(** [CreateInitialRestriction] *)
Definition CreateInitialRestriction (config : SourceConfig) : Restriction :=
  {| Start := 0; End := NumElements config |}.

(** [SplitRestriction] *)
Definition SplitRestriction (config : SourceConfig) (rest : Restriction)
  : list Restriction :=
  EvenSplits rest (InitialSplits config).

(** ** The collaborators of [ProcessElement] *)

(** A Go [error]. *)
Definition error : Type := string.

(** [Read(p []byte) (n int, err error)]: from a state and the length of [p],
    the bytes written to the front of [p], the error, and the next state. *)
Class Reader (R : Type) : Type := {
  Read : R -> nat -> list Byte.byte * option error * R
}.

(** [*rand.Rand] of math/rand, as the source uses it.  [Seed] puts the
    generator in a state that depends on the seed alone; [Float64] draws a
    number and moves the state on. *)
Class Rand (G : Type) : Type := {
  Seed : Z -> G;
  Float64 : G -> float * G;
  Rand_Reader :: Reader G
}.

(** The restriction tracker behind [*sdf.LockRTracker]: the restriction it
    holds, and [TryClaim], which answers and moves the tracker on.  The lock
    serialises a split requested by the runner with the claims, so such a
    split is part of the step a later [TryClaim] makes. *)
Class RTracker (T : Type) : Type := {
  GetRestriction : T -> Restriction;
  TryClaim : T -> Z -> bool * T
}.

(** What the loop of [ProcessElement] needs of the tracker's contract
    (section 4.3 of the specification): a claim is granted only for a
    position inside the restriction the tracker holds, and the end of that
    restriction never grows. *)
Class RTrackerContract (T : Type) `{RTracker T} : Prop := {
  claim_inside : forall (rt : T) (i : Z) (rt' : T),
    TryClaim rt i = (true, rt') -> i < End (GetRestriction rt);
  end_shrinks : forall (rt : T) (i : Z) (ok : bool) (rt' : T),
    TryClaim rt i = (ok, rt') -> End (GetRestriction rt') <= End (GetRestriction rt)
}.

(** ** ProcessElement *)

Inductive RuntimePanic : Type :=
  | LenOutOfRange      (* makeslice: len out of range *)
  | DivideByZero.      (* integer divide by zero *)

(** The Go runtime of the platform, as far as [make] depends on it:
    [maxAlloc] is the largest number of bytes that a slice may have (2^48 on
    64-bit Linux). *)
Class Platform : Type := { maxAlloc : Z }.

(** [make([]byte, n)]: the runtime panics with "makeslice: len out of range"
    when [n] is negative and when [n] is above [maxAlloc].  A length within
    these bounds gives a slice of [n] zero bytes; the machine is taken to
    have the memory for it (running out of memory ends the process, it is
    not a panic of the program, and is not modelled). *)
Definition make `{Platform} (n : Z) : option (list Byte.byte) :=
  if (n <? 0) || (maxAlloc <? n) then None else Some (replicate (Z.to_nat n) Byte.x00).

(** The buffer [p] after a [Read] wrote [bs] to its front. *)
Definition overwrite (p bs : list Byte.byte) : list Byte.byte :=
  take (length p) bs ++ drop (length bs) p.

(** What the body of the loop does for one claimed index. *)
Inductive Generated (R : Type) : Type :=
  | Element (key val : list Byte.byte) (rng : R)
  | ReadError (err : error) (rng : R)
  | Panic (p : RuntimePanic).
Arguments Element {R} key val rng.
Arguments ReadError {R} err rng.
Arguments Panic {R} p.

(** [generator.Seed(i); randomSample := generator.Float64()].  The generator
    made before the loop is seeded anew at every index before it is read, so
    the state it is left in does not reach the next index. *)
Definition randomSample `{Rand G} (i : Z) : float := fst (Float64 (Seed i)).

(** The value: [fn.rng.Read(val)], then [emit(key, val)]. *)
Definition fillValue `{Reader R} (key val : list Byte.byte) (rng : R) : Generated R :=
  match Read rng (length val) with
  | (_, Some err, rng') => ReadError err rng'
  | (bs, None, rng') => Element key (overwrite val bs) rng'
  end.

(** Lines 134 to 151 of the source, for the index [i]. *)
Definition generate `{Platform} `{Rand G} `{Reader R} (config : SourceConfig) (i : Z) (rng : R)
  : Generated R :=
  match make (KeySize config), make (ValueSize config) with
  | None, _ | _, None => Panic LenOutOfRange
  | Some key, Some val =>
      if PrimFloat.ltb (randomSample (G := G) i) (HotKeyFraction config) then
        if NumHotKeys config =? 0 then Panic DivideByZero
        else
          match Read (Seed (G := G) (Z.rem i (NumHotKeys config))) (length key) with
          | (_, Some err, _) => ReadError err rng
          | (bs, None, _) => fillValue (overwrite key bs) val rng
          end
      else
        match Read rng (length key) with
        | (_, Some err, rng') => ReadError err rng'
        | (bs, None, rng') => fillValue (overwrite key bs) val rng'
        end
  end.

(** What an observer sees of a run: the successful claims and the calls of
    [emit], each with the value of the loop variable. *)
Inductive Event : Type :=
  | Claimed (i : Z)
  | Emitted (i : Z) (key val : list Byte.byte).

(** How a run ends; [Running] is a run cut off before its end. *)
Inductive Exit : Type :=
  | ReturnNil
  | ReturnErr (err : error)
  | Panicked (p : RuntimePanic)
  | Running.

Record Run (T R : Type) : Type := mkRun {
  trace : list Event;
  exit : Exit;
  finalTracker : T;
  finalRng : R
}.
Arguments mkRun {T R}.
Arguments trace {T R}.
Arguments exit {T R}.
Arguments finalTracker {T R}.
Arguments finalRng {T R}.

Definition withEvents {T R} (evs : list Event) (r : Run T R) : Run T R :=
  mkRun (evs ++ trace r) (exit r) (finalTracker r) (finalRng r).

(** [for i := ...; rt.TryClaim(i); i++ { ... }], at most [fuel] claims. *)
Fixpoint loop `{Platform} `{Rand G} `{Reader R} `{RTracker T}
  (fuel : nat) (config : SourceConfig) (i : Z) (rt : T) (rng : R) : Run T R :=
  match fuel with
  | O => mkRun [] Running rt rng
  | S fuel' =>
      let (ok, rt') := TryClaim rt i in
      if ok then
        match generate (G := G) config i rng with
        | Element key val rng' =>
            withEvents [Claimed i; Emitted i key val]
              (loop (G := G) fuel' config (wrap64 (i + 1)) rt' rng')
        | ReadError err rng' => mkRun [Claimed i] (ReturnErr err) rt' rng'
        | Panic p => mkRun [Claimed i] (Panicked p) rt' rng
        end
      else mkRun [] ReturnNil rt' rng
  end.

(** [ProcessElement]; [rng] is the state of [fn.rng]. *)
Definition ProcessElement `{Platform} `{Rand G} `{Reader R} `{RTracker T}
  (fuel : nat) (rt : T) (config : SourceConfig) (rng : R) : Run T R :=
  loop (G := G) fuel config (Start (GetRestriction rt)) rt rng.

(** ** The offset-range tracker *)

(** Modelled from the spec: the offset-range tracker ([offsetrange.Tracker],
    which [CreateTracker] puts behind a lock) is not among the sources.
    Section 4.3: [tryClaim(i)] succeeds only if [i] is within the tracker's
    unclaimed remainder and claims are increasing, and it returns false once
    the remainder is exhausted or has been ceded by a split; after a false
    answer no claim succeeds. *)
Record Tracker : Type := mkTracker {
  rest : Restriction;
  claimed : Z;        (* the last claimed position *)
  stopped : bool      (* a claim was answered with false *)
}.

Definition NewTracker (r : Restriction) : Tracker :=
  mkTracker r (Start r - 1) false.

Definition tryClaim (t : Tracker) (pos : Z) : bool * Tracker :=
  if stopped t then (false, t)
  else if (claimed t <? pos) && (pos <? End (rest t))
       then (true, mkTracker (rest t) pos false)
       else (false, mkTracker (rest t) (claimed t) true).

#[global] Instance Tracker_RTracker : RTracker Tracker :=
  {| GetRestriction := rest; TryClaim := tryClaim |}.

(** [CreateTracker] *)
Definition CreateTracker (r : Restriction) : Tracker := NewTracker r.

(** Modelled from the spec: a dynamic split (section 3, RangeTracker) takes
    the unclaimed tail from a split point on away from the tracker; a split
    point outside the unclaimed remainder changes nothing. *)
Definition trySplit (t : Tracker) (splitPt : Z) : Tracker :=
  if negb (stopped t) && (claimed t <? splitPt) && (splitPt <? End (rest t))
  then mkTracker (mkRestriction (Start (rest t)) splitPt) (claimed t) (stopped t)
  else t.

(** A tracker shared with a runner: [pending] holds the split points the
    runner asks for, one served before each claim. *)
Record SharedTracker : Type := mkShared {
  inner : Tracker;
  pending : list (option Z)
}.

Definition sharedClaim (s : SharedTracker) (pos : Z) : bool * SharedTracker :=
  let t := match pending s with
           | Some p :: _ => trySplit (inner s) p
           | _ => inner s
           end in
  let (ok, t') := tryClaim t pos in
  (ok, mkShared t' (tail (pending s))).

#[global] Instance SharedTracker_RTracker : RTracker SharedTracker :=
  {| GetRestriction := fun s => rest (inner s); TryClaim := sharedClaim |}.

(** ** Sample generators *)

(** A linear congruential generator on 64 bits, standing for math/rand in
    the examples. *)
Record Lcg : Type := mkLcg { lcgState : Z }.

Definition lcgNext (g : Lcg) : Lcg :=
  mkLcg ((lcgState g * 6364136223846793005 + 1442695040888963407) mod 2 ^ 64).

Definition byteOfZ (z : Z) : Byte.byte :=
  default Byte.x00 (Byte.of_N (Z.to_N (z mod 256))).

Fixpoint lcgBytes (n : nat) (g : Lcg) : list Byte.byte * Lcg :=
  match n with
  | O => ([], g)
  | S n' =>
      let g1 := lcgNext g in
      let (bs, g2) := lcgBytes n' g1 in
      (byteOfZ (lcgState g1 / 2 ^ 56) :: bs, g2)
  end.

#[global] Instance Lcg_Reader : Reader Lcg :=
  {| Read := fun g n => let (bs, g') := lcgBytes n g in (bs, None, g') |}.

#[global] Instance Lcg_Rand : Rand Lcg :=
  {| Seed := fun seed => mkLcg (seed mod 2 ^ 64);
     Float64 := fun g =>
       let g1 := lcgNext g in
       (PrimFloat.div (float64_of_Z (lcgState g1 / 2 ^ 11)) (float64_of_Z (2 ^ 53)), g1) |}.

(** An entropy source that hands out [budget] bytes and then fails. *)
Record Entropy : Type := mkEntropy { budget : nat }.

#[global] Instance Entropy_Reader : Reader Entropy :=
  {| Read := fun e n =>
       if (n <=? budget e)%nat
       then (replicate n Byte.xff, None, mkEntropy (budget e - n))
       else ([], Some "entropy source exhausted"%string, e) |}.

(** ** Vocabulary of the properties *)

(** A call of one of the six setters. *)
Inductive SetterCall : Type :=
  | CallNumElements (val : Z)
  | CallInitialSplits (val : Z)
  | CallKeySize (val : Z)
  | CallValueSize (val : Z)
  | CallNumHotKeys (val : Z)
  | CallHotKeyFraction (val : float).

Definition call (c : SetterCall) (b : loc) (h : heap) : Outcome loc * heap :=
  match c with
  | CallNumElements v => Builder.NumElements b v h
  | CallInitialSplits v => Builder.InitialSplits b v h
  | CallKeySize v => Builder.KeySize b v h
  | CallValueSize v => Builder.ValueSize b v h
  | CallNumHotKeys v => Builder.NumHotKeys b v h
  | CallHotKeyFraction v => Builder.HotKeyFraction b v h
  end.

Definition target (c : SetterCall) : Field :=
  match c with
  | CallNumElements _ => FNumElements
  | CallInitialSplits _ => FInitialSplits
  | CallKeySize _ => FKeySize
  | CallValueSize _ => FValueSize
  | CallNumHotKeys _ => FNumHotKeys
  | CallHotKeyFraction _ => FHotKeyFraction
  end.

Definition argument (c : SetterCall) : GoValue :=
  match c with
  | CallNumElements v | CallInitialSplits v | CallKeySize v
  | CallValueSize v | CallNumHotKeys v => VInt64 v
  | CallHotKeyFraction v => VFloat64 v
  end.

(** The configuration seen through a pointer to a builder. *)
Definition observe (h : heap) (holder : loc) : option SourceConfig :=
  cfg <$> h !! holder.

(** A JSON value that the decoder stores in the field [f] without an error:
    [null], an integer literal in the 64-bit range for an [int64] field, a
    number in the range of [float64] for the [float64] field. *)
Definition fits (f : Field) (v : JSON) : bool :=
  match v with
  | JNull => true
  | JNumber (IntLit z) =>
      match f with
      | FHotKeyFraction => isFinite (float64_of_Z z)
      | _ => in_int64b z
      end
  | JNumber (RealLit x) =>
      match f with
      | FHotKeyFraction => isFinite x
      | _ => false
      end
  | _ => false
  end.

Definition wellTyped (m : string * JSON) : bool :=
  match fieldOfKey (fst m) with
  | Some f => fits f (snd m)
  | None => false
  end.

(** The documents without a syntax error, an unknown key or an ill-typed
    value: [null], and the objects whose members are all well typed. *)
Definition accepted (doc : Document) : bool :=
  match doc with
  | Value JNull => true
  | Value (JObject ms) => forallb wellTyped ms
  | _ => false
  end.

(** The document has a member for the field [f]. *)
Definition mentions (f : Field) (doc : Document) : bool :=
  match doc with
  | Value (JObject ms) => existsb (fun m => bool_decide (fieldOfKey (fst m) = Some f)) ms
  | _ => false
  end.

(** The index [x] lies in the range [r]. *)
Definition contains (r : Restriction) (x : Z) : Prop := Start r <= x < End r.

(** [chain a l b]: the ranges of [l], none empty, each beginning where the
    one before it ends, lead from [a] to [b]. *)
Fixpoint chain (a : Z) (l : list Restriction) (b : Z) : Prop :=
  match l with
  | [] => a = b
  | s :: l' => Start s = a /\ Start s < End s /\ chain (End s) l' b
  end.

(** The indices claimed, and the indices emitted, in the order of the trace. *)
Definition claimedIndices (tr : list Event) : list Z :=
  omap (fun e => match e with Claimed i => Some i | _ => None end) tr.

Definition emittedIndices (tr : list Event) : list Z :=
  omap (fun e => match e with Emitted i _ _ => Some i | _ => None end) tr.

(** The key that the generator seeded with [r] writes: a hot key. *)
Definition hotKey `{Rand G} (config : SourceConfig) (r : Z) : list Byte.byte :=
  overwrite (replicate (Z.to_nat (KeySize config)) Byte.x00)
    (fst (fst (Read (Seed (G := G) r) (Z.to_nat (KeySize config))))).

(** The hot keys of the seeds from 0 to [NumHotKeys - 1]. *)
Definition hotKeyPool `{Rand G} (config : SourceConfig) : list (list Byte.byte) :=
  hotKey (G := G) config <$> seqZ 0 (NumHotKeys config).

(** ** Sample inputs *)

(** The platform of the examples: 64-bit Linux. *)
#[global] Instance linux64 : Platform := {| maxAlloc := 2 ^ 48 |}.

(** Two hot keys, and every index hot. *)
Definition hotConfig : SourceConfig :=
  setNumHotKeys 2 (setHotKeyFraction 1 defaultConfig).

(** No hot key, and a hot key fraction of 1: within the bounds of every
    field, and accepted by [Build]. *)
Definition noPoolConfig : SourceConfig := setHotKeyFraction 1 defaultConfig.

(** Keys of one byte and 257 hot keys, every index hot. *)
Definition crowdedConfig : SourceConfig :=
  setNumHotKeys 257 (setKeySize 1 (setHotKeyFraction 1 defaultConfig)).

(** The UTF-8 encodings of the long s (U+017F) and of the Kelvin sign
    (U+212A). *)
Definition longS : string :=
  String (ascii_of_N 197) (String (ascii_of_N 191) EmptyString).

Definition kelvinSign : string :=
  String (ascii_of_N 226) (String (ascii_of_N 132) (String (ascii_of_N 170) EmptyString)).

(** The number a list of one byte holds. *)
Definition byteCode (k : list Byte.byte) : nat :=
  match k with
  | [b] => Byte.to_nat b
  | _ => O
  end.




(** ** Vocabulary of the further properties *)

(** The first of the four size fields, in the order [Build] tests them, that
    is below 1. *)
Definition firstViolation (c : SourceConfig) : option Field :=
  List.find (fun f => negb (inBounds f c))
    [FInitialSplits; FNumElements; FKeySize; FValueSize].

(** A chain of setter calls on one builder, [b.F1(v1).F2(v2)...]: each call
    is made on the pointer the call before it returned. *)
Fixpoint callAll (cs : list SetterCall) (b : loc) (h : heap) : Outcome loc * heap :=
  match cs with
  | [] => (Returns b, h)
  | c :: cs' =>
      match call c b h with
      | (Returns b', h') => callAll cs' b' h'
      | (Panics m, h') => (Panics m, h')
      end
  end.

(** The argument of the last call of the chain that sets the field [f]. *)
Fixpoint lastSet (f : Field) (cs : list SetterCall) : option GoValue :=
  match cs with
  | [] => None
  | c :: cs' =>
      match lastSet f cs' with
      | Some v => Some v
      | None => if decide (target c = f) then Some (argument c) else None
      end
  end.



(** The document that gives each of the six keys the value of its field. *)
Definition document (c : SourceConfig) : Document :=
  Value (JObject
    [(jsonTag FNumElements, JNumber (IntLit (NumElements c)));
     (jsonTag FInitialSplits, JNumber (IntLit (InitialSplits c)));
     (jsonTag FKeySize, JNumber (IntLit (KeySize c)));
     (jsonTag FValueSize, JNumber (IntLit (ValueSize c)));
     (jsonTag FNumHotKeys, JNumber (IntLit (NumHotKeys c)));
     (jsonTag FHotKeyFraction, JNumber (RealLit (HotKeyFraction c)))]).

(** A broken configuration, as [BuildFromJSON] returns it for the document
    [{"key_size": -1}]. *)
Definition negativeKeyConfig : SourceConfig := setKeySize (-1) defaultConfig.

(** A configuration within the bounds of every field whose keys no
    platform can allocate: [DefaultSourceConfig().KeySize(1 << 62)]. *)
Definition hugeKeyConfig : SourceConfig := setKeySize (2 ^ 62) defaultConfig.

(** The index [i] is hot: its sample is below the hot key fraction. *)
Definition hot `{Rand G} (config : SourceConfig) (i : Z) : bool :=
  PrimFloat.ltb (randomSample (G := G) i) (HotKeyFraction config).

(** A reader whose [Read] never returns an error, as [*rand.Rand] documents
    for its own. *)
Definition infallible (R : Type) `{Reader R} : Prop :=
  forall (r : R) (n : nat), snd (fst (Read r n)) = None.

(** * Properties *)

(** ** Build *)

Lemma check_returns_same (c c' : SourceConfig) :
  Builder.check c = Returns c' -> c' = c.
Proof.
  unfold Builder.check.
  repeat match goal with |- context [if ?x then _ else _] => destruct x end;
    congruence.
Qed.

(** The first four checks report the field they test. *)
Lemma check_reports_tested_field (c : SourceConfig) (format : string) (v : GoValue) :
  Builder.check c = Panics (Sprintf format v) ->
  0 <= NumHotKeys c ->
  PrimFloat.ltb (HotKeyFraction c) 0 || PrimFloat.ltb 1 (HotKeyFraction c) = false ->
  exists f, inBounds f c = false /\ v = fieldValue f c.
Proof.
  unfold Builder.check. intros Hc Hn Hf.
  destruct (InitialSplits c <=? 0) eqn:E1;
    [exists FInitialSplits; simpl; split; [lia | congruence] |].
  destruct (NumElements c <=? 0) eqn:E2;
    [exists FNumElements; simpl; split; [lia | congruence] |].
  destruct (KeySize c <=? 0) eqn:E3;
    [exists FKeySize; simpl; split; [lia | congruence] |].
  destruct (ValueSize c <=? 0) eqn:E4;
    [exists FValueSize; simpl; split; [lia | congruence] |].
  destruct (NumHotKeys c <? 0) eqn:E5; [lia |].
  rewrite Hf in Hc. discriminate.
Qed.

(** C5 (the code departs from it): when the first four checks pass, a
    negative [NumHotKeys] makes [Build] panic with the message about
    [NumHotKeys], whose reported value is [HotKeyFraction]; and a
    [HotKeyFraction] below 0 or above 1 makes it panic with the message about
    [HotKeyFraction], whose reported value is [NumHotKeys].  In both cases the
    value in the message is not the value of the field the message names. *)
Theorem Build_reports_the_other_field (h : heap) (b : loc) (s : SourceConfigBuilder) :
  h !! b = Some s ->
  0 < InitialSplits (cfg s) -> 0 < NumElements (cfg s) ->
  0 < KeySize (cfg s) -> 0 < ValueSize (cfg s) ->
  (NumHotKeys (cfg s) < 0 ->
     Builder.Build b h =
       Panics (Sprintf ("SourceConfig." ++ goName FNumHotKeys ++ " must be >= 0. Got: %v")
                 (fieldValue FHotKeyFraction (cfg s)))
     /\ fieldValue FHotKeyFraction (cfg s) <> fieldValue FNumHotKeys (cfg s))
  /\ (0 <= NumHotKeys (cfg s) ->
      PrimFloat.ltb (HotKeyFraction (cfg s)) 0 || PrimFloat.ltb 1 (HotKeyFraction (cfg s)) = true ->
      Builder.Build b h =
        Panics (Sprintf
          ("SourceConfig." ++ goName FHotKeyFraction
           ++ " must be a floating point number from 0 and 1. Got: %v")
          (fieldValue FNumHotKeys (cfg s)))
      /\ fieldValue FNumHotKeys (cfg s) <> fieldValue FHotKeyFraction (cfg s)).
Proof.
  intros Hb H1 H2 H3 H4. unfold Builder.Build, Builder.check. rewrite Hb.
  destruct (InitialSplits (cfg s) <=? 0) eqn:E1; [lia |].
  destruct (NumElements (cfg s) <=? 0) eqn:E2; [lia |].
  destruct (KeySize (cfg s) <=? 0) eqn:E3; [lia |].
  destruct (ValueSize (cfg s) <=? 0) eqn:E4; [lia |].
  split.
  - intros Hn. destruct (NumHotKeys (cfg s) <? 0) eqn:E5; [| lia].
    split; [reflexivity | discriminate].
  - intros Hn Hf. destruct (NumHotKeys (cfg s) <? 0) eqn:E5; [lia |].
    rewrite Hf. split; [reflexivity | discriminate].
Qed.

(** [DefaultSourceConfig().NumHotKeys(-1).Build()] reports 0, the hot key
    fraction, and not -1. *)
Lemma Build_reports_the_other_field_witness :
  let h := <[1%positive := mkBuilder (setNumHotKeys (-1) defaultConfig)]> (∅ : heap) in
  Builder.Build 1%positive h =
    Panics (Sprintf "SourceConfig.NumHotKeys must be >= 0. Got: %v" (VFloat64 0))
  /\ fieldValue FNumHotKeys (setNumHotKeys (-1) defaultConfig) = VInt64 (-1).
Proof.
  split; [| reflexivity].
  refine (proj1 (proj1 (Build_reports_the_other_field
    (<[1%positive := mkBuilder (setNumHotKeys (-1) defaultConfig)]> ∅) 1%positive
    (mkBuilder (setNumHotKeys (-1) defaultConfig)) _ _ _ _ _) _)).
  - apply lookup_insert_eq.
  - simpl; lia.
  - simpl; lia.
  - simpl; lia.
  - simpl; lia.
  - simpl; lia.
Defined.

(** ** The setters *)

Lemma assign_spec (upd : SourceConfig -> SourceConfig) (h : heap) (b : loc)
    (s : SourceConfigBuilder) :
  h !! b = Some s ->
  Builder.assign upd b h = (Returns b, <[b := mkBuilder (upd (cfg s))]> h).
Proof. intros Hb. unfold Builder.assign. by rewrite Hb. Qed.

Lemma call_spec (c : SetterCall) (h : heap) (b : loc) (s : SourceConfigBuilder) :
  h !! b = Some s ->
  exists c', call c b h = (Returns b, <[b := mkBuilder c']> h)
    /\ fieldValue (target c) c' = argument c
    /\ forall f, f <> target c -> fieldValue f c' = fieldValue f (cfg s).
Proof.
  intros Hb.
  destruct c; simpl;
    unfold Builder.NumElements, Builder.InitialSplits, Builder.KeySize,
      Builder.ValueSize, Builder.NumHotKeys, Builder.HotKeyFraction;
    rewrite (assign_spec _ _ _ _ Hb); eexists; (split; [reflexivity |]);
    (split; [reflexivity |]); intros [] Hf; try reflexivity; congruence.
Qed.

(** C9 (as stated, refuted): a second holder of the pointer that
    [DefaultSourceConfig] returned sees the defaults before the call
    [NumElements(5)] and a configuration with 5 elements after it. *)
Lemma setter_changes_what_other_holders_see :
  let b := fst (DefaultSourceConfig ∅) in
  let h := snd (DefaultSourceConfig ∅) in
  let holder := b in
  observe h holder = Some defaultConfig
  /\ fst (Builder.NumElements b 5 h) = Returns b
  /\ observe (snd (Builder.NumElements b 5 h)) holder
     = Some (setNumElements 5 defaultConfig)
  /\ NumElements (setNumElements 5 defaultConfig) <> NumElements defaultConfig.
Proof. vm_compute. repeat split; discriminate. Qed.

(** C9 (amended): a setter called on an allocated builder returns the very
    pointer it was called on and stores the new value through it.  Every
    holder of that pointer then observes the field set to the argument and
    the other five fields as they were; builders at other addresses are
    unchanged. *)
Theorem setter_updates_in_place (c : SetterCall) (h : heap) (b : loc)
    (s : SourceConfigBuilder) :
  h !! b = Some s ->
  fst (call c b h) = Returns b
  /\ (forall holder, holder = b ->
        exists c', observe (snd (call c b h)) holder = Some c'
          /\ fieldValue (target c) c' = argument c
          /\ forall f, f <> target c -> fieldValue f c' = fieldValue f (cfg s))
  /\ (forall other, other <> b -> observe (snd (call c b h)) other = observe h other).
Proof.
  intros Hb. destruct (call_spec c h b s Hb) as (c' & -> & Ht & Hf). simpl.
  split; [reflexivity |]. split.
  - intros holder ->. exists c'. unfold observe.
    rewrite lookup_insert_eq. auto.
  - intros other Hne. unfold observe. by rewrite lookup_insert_ne.
Qed.

Lemma setter_updates_in_place_witness :
  let b := fst (DefaultSourceConfig ∅) in
  let h := snd (DefaultSourceConfig ∅) in
  fst (call (CallKeySize 16) b h) = Returns b
  /\ (forall holder, holder = b ->
        exists c', observe (snd (call (CallKeySize 16) b h)) holder = Some c'
          /\ fieldValue FKeySize c' = VInt64 16
          /\ forall f, f <> FKeySize -> fieldValue f c' = fieldValue f defaultConfig)
  /\ (forall other, other <> b ->
        observe (snd (call (CallKeySize 16) b h)) other = observe h other).
Proof.
  exact (setter_updates_in_place (CallKeySize 16) (snd (DefaultSourceConfig ∅))
           (fst (DefaultSourceConfig ∅)) (mkBuilder defaultConfig)
           (lookup_insert_eq _ _ _)).
Defined.

(** ** BuildFromJSON *)

Lemma fieldOfKey_jsonTag (f : Field) : fieldOfKey (jsonTag f) = Some f.
Proof. by destruct f. Qed.

(** Keys that match a tag by folding only: in another case, with the long s
    for an s, with the Kelvin sign for a k.  A key that differs in anything
    else is unknown. *)
Example fieldOfKey_folds :
  fieldOfKey "KEY_Size" = Some FKeySize
  /\ fieldOfKey (String.append "key_" (String.append longS "ize")) = Some FKeySize
  /\ fieldOfKey (String.append kelvinSign "ey_size") = Some FKeySize
  /\ fieldOfKey (String.append "num_hot_" (String.append kelvinSign "eys")) = Some FNumHotKeys
  /\ fieldOfKey "key-size" = None
  /\ fieldOfKey "keysize" = None.
Proof. vm_compute. repeat split. Qed.

(** The document with the key [key_] long s [ize] sets the key size. *)
Example BuildFromJSON_folded_key :
  let b := fst (DefaultSourceConfig ∅) in
  let h := snd (DefaultSourceConfig ∅) in
  let doc :=
    Value (JObject [(String.append "key_" (String.append longS "ize"), JNumber (IntLit 4))]) in
  mentions FKeySize doc = true
  /\ fst (BuildFromJSON b doc h) = Returns (setKeySize 4 defaultConfig).
Proof. vm_compute. repeat split. Qed.

Lemma storeField_ok_iff (f : Field) (v : JSON) (c : SourceConfig) :
  snd (storeField f v c) = None <-> fits f v = true.
Proof.
  destruct f, v as [| | [z | x] | | |]; simpl;
    repeat match goal with |- context [if ?x then _ else _] => destruct x end;
    simpl; split; congruence.
Qed.

Lemma storeField_other (f f' : Field) (v : JSON) (c : SourceConfig) :
  f' <> f -> fieldValue f' (fst (storeField f v c)) = fieldValue f' c.
Proof.
  intros Hne.
  destruct f, v as [| | [z | x] | | |]; simpl;
    repeat match goal with |- context [if ?x then _ else _] => destruct x end;
    simpl; try reflexivity; destruct f'; try reflexivity; congruence.
Qed.

Lemma storeField_int (f : Field) (z : Z) (c : SourceConfig) :
  f <> FHotKeyFraction -> in_int64 z ->
  fieldValue f (fst (storeField f (JNumber (IntLit z)) c)) = VInt64 z.
Proof.
  intros Hf Hz.
  assert (in_int64b z = true) as Hb by (unfold in_int64b, in_int64 in *; lia).
  destruct f; simpl; rewrite ?Hb; simpl; congruence.
Qed.

Lemma storeField_real (x : float) (c : SourceConfig) :
  isFinite x = true ->
  fieldValue FHotKeyFraction (fst (storeField FHotKeyFraction (JNumber (RealLit x)) c))
  = VFloat64 x.
Proof. intros Hx. simpl. by rewrite Hx. Qed.

Lemma decodeMember_ok_iff (m : string * JSON) (c : SourceConfig) :
  snd (decodeMember m c) = None <-> wellTyped m = true.
Proof.
  unfold decodeMember, wellTyped. destruct (fieldOfKey (fst m)) as [f |].
  - apply storeField_ok_iff.
  - simpl. split; congruence.
Qed.

Lemma decodeMembers_ok_iff (ms : list (string * JSON)) (c : SourceConfig) :
  snd (decodeMembers ms c) = None <-> forallb wellTyped ms = true.
Proof.
  revert c. induction ms as [| m ms IH]; intros c; simpl; [done |].
  pose proof (decodeMember_ok_iff m c) as Hm.
  destruct (decodeMember m c) as [c1 e1]. specialize (IH c1).
  destruct (decodeMembers ms c1) as [c2 e2]. simpl in *.
  rewrite andb_true_iff, <- Hm, <- IH.
  destruct e1; simpl; split; try tauto; try congruence.
Qed.

Lemma decodeMembers_app (ms ms' : list (string * JSON)) (c : SourceConfig) :
  decodeMembers (ms ++ ms') c =
    (fst (decodeMembers ms' (fst (decodeMembers ms c))),
     match snd (decodeMembers ms c) with
     | Some e => Some e
     | None => snd (decodeMembers ms' (fst (decodeMembers ms c)))
     end).
Proof.
  revert c. induction ms as [| m ms IH]; intros c; simpl.
  - by destruct (decodeMembers ms' c).
  - destruct (decodeMember m c) as [c1 e1]. rewrite IH.
    destruct (decodeMembers ms c1) as [c2 e2]. simpl.
    by destruct e1.
Qed.

Lemma decodeMembers_keeps (f : Field) (ms : list (string * JSON)) (c : SourceConfig) :
  existsb (fun m => bool_decide (fieldOfKey (fst m) = Some f)) ms = false ->
  fieldValue f (fst (decodeMembers ms c)) = fieldValue f c.
Proof.
  revert c. induction ms as [| m ms IH]; intros c; simpl; [done |].
  rewrite orb_false_iff. intros [Hm Hms].
  apply bool_decide_eq_false in Hm.
  assert (fieldValue f (fst (decodeMember m c)) = fieldValue f c) as H1.
  { unfold decodeMember. destruct (fieldOfKey (fst m)) as [f' |]; [| done].
    apply storeField_other. congruence. }
  destruct (decodeMember m c) as [c1 e1]. specialize (IH c1 Hms).
  destruct (decodeMembers ms c1) as [c2 e2]. simpl in *. congruence.
Qed.

Lemma Decode_ok_iff (doc : Document) (c : SourceConfig) :
  snd (Decode doc c) = None <-> accepted doc = true.
Proof.
  destruct doc as [| []]; simpl; try (split; congruence).
  apply decodeMembers_ok_iff.
Qed.

Lemma Decode_keeps (f : Field) (doc : Document) (c : SourceConfig) :
  mentions f doc = false -> fieldValue f (fst (Decode doc c)) = fieldValue f c.
Proof.
  destruct doc as [| []]; simpl; try done. apply decodeMembers_keeps.
Qed.

(** What [BuildFromJSON] does on an allocated builder, in terms of [Decode]. *)
Lemma BuildFromJSON_spec (h : heap) (b : loc) (s : SourceConfigBuilder) (doc : Document) :
  h !! b = Some s ->
  observe (snd (BuildFromJSON b doc h)) b = Some (fst (Decode doc (cfg s)))
  /\ (accepted doc = true ->
      fst (BuildFromJSON b doc h) = Returns (fst (Decode doc (cfg s))))
  /\ (accepted doc = false -> exists m, fst (BuildFromJSON b doc h) = Panics m).
Proof.
  intros Hb. unfold BuildFromJSON. rewrite Hb.
  pose proof (Decode_ok_iff doc (cfg s)) as Hok.
  destruct (Decode doc (cfg s)) as [c e]. simpl in *.
  destruct e as [e |]; simpl; unfold observe; rewrite lookup_insert_eq; simpl.
  - split; [done |]. split; [| eauto].
    intros Ha. apply Hok in Ha. congruence.
  - split; [done |]. split; [done |].
    intros Ha. destruct Hok as [Hok _]. rewrite Hok in Ha; congruence.
Qed.

(** C3 (the code departs from it): from the defaults, the document
    [{"num_records": 0}] is decoded and returned without a check; the
    returned configuration has [NumElements = 0], which is out of bounds,
    and [Build] on the same builder panics. *)
Lemma BuildFromJSON_returns_out_of_bounds :
  let b := fst (DefaultSourceConfig ∅) in
  let h := snd (DefaultSourceConfig ∅) in
  let doc := Value (JObject [("num_records"%string, JNumber (IntLit 0))]) in
  fst (BuildFromJSON b doc h) = Returns (setNumElements 0 defaultConfig)
  /\ inBounds FNumElements (setNumElements 0 defaultConfig) = false
  /\ validConfig (setNumElements 0 defaultConfig) = false
  /\ Builder.Build b (snd (BuildFromJSON b doc h))
     = Panics (Sprintf "SourceConfig.NumElements must be >= 1. Got: %v" (VInt64 0)).
Proof. vm_compute. repeat split. Qed.

(** X5: what [BuildFromJSON] fails on.  On an allocated builder it returns exactly
    for the accepted documents ([null], or an object whose keys are all known
    and whose values fit the type of their field) and panics for every other
    one.  A last member that gives an [int64] field any integer of the 64-bit
    range, or the [float64] field any finite number, is returned as given. *)
Theorem BuildFromJSON_fails_only_on_decoding (h : heap) (b : loc)
    (s : SourceConfigBuilder) :
  h !! b = Some s ->
  (forall doc, accepted doc = true <-> exists c, fst (BuildFromJSON b doc h) = Returns c)
  /\ (forall doc, accepted doc = false <-> exists m, fst (BuildFromJSON b doc h) = Panics m)
  /\ (forall ms f z, forallb wellTyped ms = true -> f <> FHotKeyFraction -> in_int64 z ->
        exists c,
          fst (BuildFromJSON b (Value (JObject (ms ++ [(jsonTag f, JNumber (IntLit z))]))) h)
          = Returns c /\ fieldValue f c = VInt64 z)
  /\ (forall ms x, forallb wellTyped ms = true -> isFinite x = true ->
        exists c,
          fst (BuildFromJSON b
                 (Value (JObject (ms ++ [(jsonTag FHotKeyFraction, JNumber (RealLit x))]))) h)
          = Returns c /\ fieldValue FHotKeyFraction c = VFloat64 x).
Proof.
  intros Hb.
  assert (forall doc, accepted doc = true ->
            fst (BuildFromJSON b doc h) = Returns (fst (Decode doc (cfg s)))) as Hret
    by (intros doc; apply (BuildFromJSON_spec h b s doc Hb)).
  assert (forall doc, accepted doc = false ->
            exists m, fst (BuildFromJSON b doc h) = Panics m) as Hpan
    by (intros doc; apply (BuildFromJSON_spec h b s doc Hb)).
  split; [| split; [| split]].
  - intros doc. split; [eauto |].
    intros [c Hc]. destruct (accepted doc) eqn:Ha; [done |].
    destruct (Hpan doc Ha) as [m Hm]. congruence.
  - intros doc. split; [eauto |].
    intros [m Hm]. destruct (accepted doc) eqn:Ha; [| done].
    rewrite (Hret doc Ha) in Hm. discriminate.
  - intros ms f z Hms Hf Hz.
    assert (in_int64b z = true) as Hzb by (unfold in_int64b, in_int64 in *; lia).
    eexists. split.
    + apply Hret. simpl. rewrite forallb_app, Hms. simpl.
      unfold wellTyped. simpl. rewrite fieldOfKey_jsonTag.
      destruct f; simpl; rewrite ?Hzb; first [reflexivity | congruence].
    + simpl. rewrite decodeMembers_app. simpl.
      unfold decodeMember. simpl. rewrite fieldOfKey_jsonTag.
      pose proof (storeField_int f z (fst (decodeMembers ms (cfg s))) Hf Hz) as Hst.
      destruct (storeField f (JNumber (IntLit z)) (fst (decodeMembers ms (cfg s)))).
      exact Hst.
  - intros ms x Hms Hx.
    eexists. split.
    + apply Hret. simpl. rewrite forallb_app, Hms. simpl.
      unfold wellTyped. simpl. by rewrite Hx.
    + simpl. rewrite decodeMembers_app. simpl.
      unfold decodeMember. simpl fst. simpl snd.
      change (fieldOfKey "hot_key_fraction") with (Some FHotKeyFraction).
      simpl. by rewrite Hx.
Qed.

Lemma BuildFromJSON_fails_only_on_decoding_witness :
  let b := fst (DefaultSourceConfig ∅) in
  let h := snd (DefaultSourceConfig ∅) in
  exists c,
    fst (BuildFromJSON b
           (Value (JObject ([("key_size"%string, JNumber (IntLit 4))]
                            ++ [(jsonTag FNumHotKeys, JNumber (IntLit (-7)))]))) h)
    = Returns c /\ fieldValue FNumHotKeys c = VInt64 (-7).
Proof.
  refine (proj1 (proj2 (proj2 (BuildFromJSON_fails_only_on_decoding
    (snd (DefaultSourceConfig ∅)) (fst (DefaultSourceConfig ∅))
    (mkBuilder defaultConfig) _)))
    [("key_size"%string, JNumber (IntLit 4))] FNumHotKeys (-7) _ _ _).
  - apply lookup_insert_eq.
  - reflexivity.
  - discriminate.
  - unfold in_int64, min_int64, max_int64. lia.
Defined.

(** C10: [BuildFromJSON] decodes into the configuration the builder holds.
    For every document, a field that no member of the document names has,
    in the builder after the call, the value it had before, and when the
    document is accepted that configuration is the one returned.  The empty
    object is accepted and returns the builder's configuration unchanged:
    the defaults, for a builder that holds them. *)
Theorem BuildFromJSON_keeps_absent_fields (h : heap) (b : loc)
    (s : SourceConfigBuilder) :
  h !! b = Some s ->
  (forall doc f, mentions f doc = false ->
     exists c, observe (snd (BuildFromJSON b doc h)) b = Some c
       /\ fieldValue f c = fieldValue f (cfg s)
       /\ (accepted doc = true -> fst (BuildFromJSON b doc h) = Returns c))
  /\ fst (BuildFromJSON b (Value (JObject [])) h) = Returns (cfg s)
  /\ (cfg s = defaultConfig ->
      fst (BuildFromJSON b (Value (JObject [])) h) = Returns
        {| NumElements := 1; InitialSplits := 1; KeySize := 8; ValueSize := 8;
           NumHotKeys := 0; HotKeyFraction := 0 |}).
Proof.
  intros Hb. split; [| split].
  - intros doc f Hf.
    destruct (BuildFromJSON_spec h b s doc Hb) as (Hobs & Hret & _).
    exists (fst (Decode doc (cfg s))).
    split; [done |]. split; [| done]. by apply Decode_keeps.
  - by apply (BuildFromJSON_spec h b s (Value (JObject [])) Hb).
  - intros Hd. etransitivity.
    + by apply (BuildFromJSON_spec h b s (Value (JObject [])) Hb).
    + simpl. by rewrite Hd.
Qed.

Lemma BuildFromJSON_keeps_absent_fields_witness :
  let b := fst (DefaultSourceConfig ∅) in
  let h := snd (DefaultSourceConfig ∅) in
  let doc := Value (JObject [("key_size"%string, JNumber (IntLit 4))]) in
  mentions FValueSize doc = false
  /\ (exists c, observe (snd (BuildFromJSON b doc h)) b = Some c
       /\ fieldValue FValueSize c = VInt64 8
       /\ (accepted doc = true -> fst (BuildFromJSON b doc h) = Returns c))
  /\ fst (BuildFromJSON b (Value (JObject [])) h) = Returns defaultConfig.
Proof.
  split; [reflexivity |].
  pose (H := BuildFromJSON_keeps_absent_fields (snd (DefaultSourceConfig ∅))
          (fst (DefaultSourceConfig ∅)) (mkBuilder defaultConfig)
          (lookup_insert_eq _ _ _)).
  split.
  - exact (proj1 H (Value (JObject [("key_size"%string, JNumber (IntLit 4))]))
             FValueSize eq_refl).
  - exact (proj1 (proj2 H)).
Defined.

(** ** SplitRestriction *)

Section Chains.

Implicit Types (l : list Restriction) (s t : Restriction) (a b x : Z).

Lemma chain_le a l b : chain a l b -> a <= b.
Proof.
  revert a. induction l as [| s l IH]; simpl; intros a.
  - lia.
  - intros (Hs & Hlt & Hc). apply IH in Hc. lia.
Qed.

Lemma chain_bounds a l b s :
  chain a l b -> s ∈ l -> a <= Start s /\ Start s < End s /\ End s <= b.
Proof.
  revert a. induction l as [| t l IH]; simpl; intros a Hc Hin.
  - by apply elem_of_nil in Hin.
  - destruct Hc as (Ht & Hlt & Hc). apply elem_of_cons in Hin as [-> | Hin].
    + apply chain_le in Hc. lia.
    + destruct (IH _ Hc Hin). lia.
Qed.

Lemma chain_covers a l b x :
  chain a l b -> (exists s, s ∈ l /\ contains s x) <-> a <= x < b.
Proof.
  revert a. induction l as [| t l IH]; simpl; intros a Hc.
  - split; [| lia]. intros (s & Hin & _). by apply elem_of_nil in Hin.
  - destruct Hc as (Ht & Hlt & Hc). specialize (IH _ Hc).
    pose proof (chain_le _ _ _ Hc) as Hle. split.
    + intros (s & Hin & Hx). apply elem_of_cons in Hin as [-> | Hin].
      * unfold contains in Hx. lia.
      * assert (End t <= x < b) by (apply IH; eauto). lia.
    + intros Hx. destruct (Z.lt_ge_cases x (End t)) as [Hlo | Hhi].
      * exists t. split; [apply elem_of_cons; by left |]. unfold contains. lia.
      * destruct IH as [_ IH]. destruct IH as (s & Hin & Hs); [lia |].
        exists s. split; [apply elem_of_cons; by right | done].
Qed.

Lemma chain_ordered a l b (i j : nat) s t :
  chain a l b -> (i < j)%nat -> l !! i = Some s -> l !! j = Some t ->
  End s <= Start t.
Proof.
  revert a i j. induction l as [| u l IH]; simpl; intros a i j Hc Hij Hi Hj.
  - done.
  - destruct Hc as (Hu & Hlt & Hc). destruct j as [| j]; [lia |].
    simpl in Hj. destruct i as [| i]; simpl in Hi.
    + injection Hi as ->.
      assert (t ∈ l) as Hin by (eapply list_elem_of_lookup_2; eauto).
      destruct (chain_bounds _ _ _ _ Hc Hin). lia.
    + eapply (IH _ i j); eauto. lia.
Qed.

Lemma chain_unit_length a l b :
  chain a l b -> (forall s, s ∈ l -> size s = 1) -> Z.of_nat (length l) = b - a.
Proof.
  revert a. induction l as [| u l IH]; simpl; intros a Hc Hsz.
  - lia.
  - destruct Hc as (Hu & Hlt & Hc).
    assert (size u = 1) as H1 by (apply Hsz, elem_of_cons; by left).
    unfold size in H1.
    rewrite Nat2Z.inj_succ, (IH _ Hc); [lia |].
    intros s Hin. apply Hsz, elem_of_cons. by right.
Qed.

End Chains.

(** The difference of two successive boundaries is the quotient or the
    quotient plus one. *)
Lemma step_bounds (a n num : Z) :
  0 < num -> n / num <= (a + n) / num - a / num <= n / num + 1.
Proof.
  intros Hnum.
  pose proof (Z.div_mod a num ltac:(lia)) as Ha.
  pose proof (Z.mod_pos_bound a num Hnum) as Hra.
  pose proof (Z.div_mod n num ltac:(lia)) as Hn.
  pose proof (Z.mod_pos_bound n num Hnum) as Hrn.
  pose proof (Z.div_mod (a + n) num ltac:(lia)) as Hs.
  pose proof (Z.mod_pos_bound (a + n) num Hnum) as Hrs.
  nia.
Qed.

Lemma piece_size (r : Restriction) (num i : Z) :
  0 < num -> 0 <= size r -> 0 <= i ->
  size r / num <= size (piece r num i) <= size r / num + 1.
Proof.
  intros Hnum Hsz Hi. unfold size at 2 3. simpl.
  rewrite !Z.quot_div_nonneg by nia.
  replace ((i + 1) * size r) with (i * size r + size r) by ring.
  pose proof (step_bounds (i * size r) (size r) num Hnum). lia.
Qed.

Lemma piece_End (r : Restriction) (num i : Z) :
  End (piece r num i) = Start (piece r num (i + 1)).
Proof. reflexivity. Qed.

Lemma pieces_chain (r : Restriction) (num : Z) (k : nat) (m : Z) :
  0 < num -> 0 <= size r -> 0 <= m ->
  chain (Start (piece r num m))
        (List.filter (fun s => 0 <? size s) (piece r num <$> seqZ m (Z.of_nat k)))
        (Start (piece r num (m + Z.of_nat k))).
Proof.
  intros Hnum Hsz. revert m. induction k as [| k IH]; intros m Hm.
  - simpl. by rewrite Z.add_0_r.
  - rewrite seqZ_cons by lia. rewrite fmap_cons. simpl List.filter.
    replace (Z.pred (Z.of_nat (S k))) with (Z.of_nat k) by lia.
    replace (m + Z.of_nat (S k)) with (Z.succ m + Z.of_nat k) by lia.
    specialize (IH (Z.succ m) ltac:(lia)).
    pose proof (piece_size r num m Hnum Hsz Hm) as Hp.
    pose proof (Z.div_pos (size r) num Hsz Hnum) as Hq.
    destruct (0 <? size (piece r num m)) eqn:E.
    + cbn [chain]. split; [done |]. split.
      * apply Z.ltb_lt in E. unfold size in E. lia.
      * by rewrite piece_End.
    + apply Z.ltb_ge in E.
      assert (Start (piece r num m) = Start (piece r num (Z.succ m))) as ->; [| done].
      unfold Z.succ. rewrite <- piece_End. unfold size in *. lia.
Qed.

Lemma EvenSplits_chain (r : Restriction) (num : Z) :
  1 <= num -> 1 <= size r -> chain (Start r) (EvenSplits r num) (End r).
Proof.
  intros Hnum Hsz. unfold EvenSplits. destruct (num <=? 1) eqn:E.
  - simpl. unfold size in Hsz. lia.
  - apply Z.leb_gt in E.
    pose proof (pieces_chain r num (Z.to_nat num) 0 ltac:(lia) ltac:(lia) ltac:(lia)) as Hc.
    rewrite Z2Nat.id in Hc by lia.
    assert (Start (piece r num 0) = Start r) as H0.
    { simpl. rewrite Z.mul_0_l, Z.quot_0_l by lia. lia. }
    assert (Start (piece r num (0 + num)) = End r) as H1.
    { simpl. rewrite Z.mul_comm, Z.quot_mul by lia. unfold size. lia. }
    by rewrite H0, H1 in Hc.
Qed.

Lemma EvenSplits_sizes (r : Restriction) (num : Z) (s : Restriction) :
  1 <= num -> 1 <= size r -> s ∈ EvenSplits r num ->
  1 <= size s /\ size r / num <= size s <= size r / num + 1 /\ (size r < num -> size s = 1).
Proof.
  intros Hnum Hsz. unfold EvenSplits. destruct (num <=? 1) eqn:E.
  - apply Z.leb_le in E. assert (num = 1) as -> by lia.
    intros Hin. apply list_elem_of_singleton in Hin as ->.
    rewrite Z.div_1_r. lia.
  - apply Z.leb_gt in E. intros Hin.
    apply list_elem_of_In, filter_In in Hin as [Hin Hpos].
    apply list_elem_of_In, list_elem_of_fmap in Hin as (i & -> & Hi).
    apply elem_of_seqZ in Hi. apply Z.ltb_lt in Hpos.
    pose proof (piece_size r num i ltac:(lia) ltac:(lia) ltac:(lia)) as Hp.
    split; [lia |]. split; [done |].
    intros Hlt. rewrite Z.div_small in Hp by lia. lia.
Qed.

Example SplitRestriction_10_3 :
  SplitRestriction (setInitialSplits 3 (setNumElements 10 defaultConfig))
    (mkRestriction 0 10)
  = [mkRestriction 0 3; mkRestriction 3 6; mkRestriction 6 10].
Proof. reflexivity. Qed.

Example SplitRestriction_3_10 :
  SplitRestriction (setInitialSplits 10 (setNumElements 3 defaultConfig))
    (mkRestriction 0 3)
  = [mkRestriction 0 1; mkRestriction 1 2; mkRestriction 2 3].
Proof. reflexivity. Qed.

(** C1: for a configuration with [N >= 1] elements and [S >= 1] initial
    splits, the ranges that [SplitRestriction] returns for the initial
    restriction are in increasing order and pairwise disjoint (an earlier one
    ends at or before the start of a later one), an index lies in one of them
    exactly when it lies in the range from 0 to [N], each has at least one
    element, any two sizes differ by at most one, and when [S > N] there are
    exactly [N] of them, each of size one. *)
Theorem SplitRestriction_even_cover (config : SourceConfig) :
  1 <= NumElements config -> 1 <= InitialSplits config ->
  let splits := SplitRestriction config (CreateInitialRestriction config) in
  (forall (i j : nat) s t, (i < j)%nat -> splits !! i = Some s -> splits !! j = Some t ->
     End s <= Start t)
  /\ (forall x, (exists s, s ∈ splits /\ contains s x) <-> 0 <= x < NumElements config)
  /\ (forall s, s ∈ splits -> 1 <= size s)
  /\ (forall s t, s ∈ splits -> t ∈ splits -> size s - size t <= 1)
  /\ (NumElements config < InitialSplits config ->
      Z.of_nat (length splits) = NumElements config
      /\ forall s, s ∈ splits -> size s = 1).
Proof.
  intros HN HS splits. subst splits. unfold SplitRestriction.
  set (r := CreateInitialRestriction config).
  assert (1 <= size r) as Hsz by (unfold size; simpl; lia).
  pose proof (EvenSplits_chain r _ HS Hsz) as Hc.
  pose proof (fun s => EvenSplits_sizes r _ s HS Hsz) as Hs.
  change (Start r) with 0 in Hc. change (End r) with (NumElements config) in Hc.
  split; [| split; [| split; [| split]]].
  - intros i j s t. exact (chain_ordered _ _ _ i j s t Hc).
  - intros x. exact (chain_covers _ _ _ x Hc).
  - intros s Hin. by apply Hs.
  - intros s t Hin1 Hin2. apply Hs in Hin1, Hin2. lia.
  - intros Hlt.
    assert (forall s, s ∈ EvenSplits r (InitialSplits config) -> size s = 1) as H1.
    { intros s Hin. apply Hs in Hin. apply Hin. unfold size. simpl. lia. }
    split; [| done].
    rewrite (chain_unit_length _ _ _ Hc H1). lia.
Qed.

(** The split capping of the specification: 3 elements, 10 splits. *)
Lemma SplitRestriction_even_cover_witness :
  let config := setInitialSplits 10 (setNumElements 3 defaultConfig) in
  let splits := SplitRestriction config (CreateInitialRestriction config) in
  (1 <= NumElements config /\ 1 <= InitialSplits config)
  /\ (forall (i j : nat) s t, (i < j)%nat -> splits !! i = Some s -> splits !! j = Some t ->
        End s <= Start t)
  /\ (forall x, (exists s, s ∈ splits /\ contains s x) <-> 0 <= x < 3)
  /\ (forall s, s ∈ splits -> 1 <= size s)
  /\ (forall s t, s ∈ splits -> t ∈ splits -> size s - size t <= 1)
  /\ (3 < 10 -> Z.of_nat (length splits) = 3 /\ forall s, s ∈ splits -> size s = 1).
Proof.
  split; [simpl; lia |].
  apply (SplitRestriction_even_cover (setInitialSplits 10 (setNumElements 3 defaultConfig)));
    simpl; lia.
Defined.

(** ** ProcessElement *)

Lemma wrap64_id (z : Z) : in_int64 z -> wrap64 z = z.
Proof.
  unfold in_int64, min_int64, max_int64, wrap64. intros Hz.
  rewrite Z.mod_small; lia.
Qed.

Lemma make_length `{Platform} (n : Z) (p : list Byte.byte) :
  make n = Some p -> Z.of_nat (length p) = n /\ p = replicate (Z.to_nat n) Byte.x00.
Proof.
  unfold make. destruct ((n <? 0) || (maxAlloc <? n)) eqn:E; [done |].
  intros [= <-]. rewrite length_replicate. apply orb_false_iff in E as [E _].
  apply Z.ltb_ge in E. split; [lia | done].
Qed.

(** [make] succeeds exactly for the lengths from 0 to [maxAlloc]. *)
Lemma make_Some_iff `{Platform} (n : Z) :
  (exists p, make n = Some p) <-> 0 <= n <= maxAlloc.
Proof.
  unfold make. destruct ((n <? 0) || (maxAlloc <? n)) eqn:E.
  - apply orb_true_iff in E. split; [by intros [p Hp] | lia].
  - apply orb_false_iff in E. split; [lia | eauto].
Qed.

Lemma make_None_iff `{Platform} (n : Z) :
  make n = None <-> n < 0 \/ maxAlloc < n.
Proof.
  unfold make. destruct ((n <? 0) || (maxAlloc <? n)) eqn:E.
  - apply orb_true_iff in E. split; [lia | done].
  - apply orb_false_iff in E. split; [done | lia].
Qed.

Lemma overwrite_length (p bs : list Byte.byte) : length (overwrite p bs) = length p.
Proof. unfold overwrite. rewrite length_app, length_take, length_drop. lia. Qed.

Section Process.

Context `{HP : Platform} {G R T : Type} `{HG : Rand G} `{HR : Reader R} `{HT : RTracker T}.
Variable config : SourceConfig.

Lemma fillValue_Element (key val k v : list Byte.byte) (rng rng' : R) :
  fillValue key val rng = Element k v rng' ->
  k = key /\ length v = length val.
Proof.
  unfold fillValue. destruct (Read rng (length val)) as [[bs [err |]] rng1]; [done |].
  intros [= <- <- _]. by rewrite overwrite_length.
Qed.

(** An element that [generate] produces has buffers of the configured
    lengths. *)
Lemma generate_lengths (i : Z) (rng rng' : R) (k v : list Byte.byte) :
  generate (G := G) config i rng = Element k v rng' ->
  Z.of_nat (length k) = KeySize config /\ Z.of_nat (length v) = ValueSize config.
Proof.
  unfold generate.
  destruct (make (KeySize config)) as [key |] eqn:Ek; [| done].
  destruct (make (ValueSize config)) as [val |] eqn:Ev; [| done].
  apply make_length in Ek as [Ek _], Ev as [Ev _].
  destruct (PrimFloat.ltb _ _).
  - destruct (NumHotKeys config =? 0); [done |].
    destruct (Read _ (length key)) as [[bs [err |]] g']; [done |].
    intros Hf. apply fillValue_Element in Hf as [-> Hv].
    rewrite overwrite_length. lia.
  - destruct (Read rng (length key)) as [[bs [err |]] rng1]; [done |].
    intros Hf. apply fillValue_Element in Hf as [-> Hv].
    rewrite overwrite_length. lia.
Qed.

(** In the hot branch the key is the hot key of [i % NumHotKeys], whatever
    the state of [fn.rng]. *)
Lemma generate_hot_key (i : Z) (rng rng' : R) (k v : list Byte.byte) :
  PrimFloat.ltb (randomSample (G := G) i) (HotKeyFraction config) = true ->
  generate (G := G) config i rng = Element k v rng' ->
  NumHotKeys config <> 0 /\ k = hotKey (G := G) config (Z.rem i (NumHotKeys config)).
Proof.
  unfold generate. intros Hhot.
  destruct (make (KeySize config)) as [key |] eqn:Ek; [| done].
  destruct (make (ValueSize config)) as [val |] eqn:Ev; [| done].
  apply make_length in Ek as [Ek ->].
  rewrite Hhot. destruct (NumHotKeys config =? 0) eqn:E0; [done |].
  apply Z.eqb_neq in E0. rewrite length_replicate.
  unfold hotKey.
  destruct (Read _ (Z.to_nat (KeySize config))) as [[bs [err |]] g']; [done |].
  intros Hf. by apply fillValue_Element in Hf as [-> _].
Qed.

(** With no hot keys and a sample below the fraction, the body divides by
    zero, unless a buffer is too large for [make], which panics first. *)
Lemma generate_divides_by_zero (i : Z) (rng : R) :
  0 <= KeySize config -> 0 <= ValueSize config ->
  NumHotKeys config = 0 ->
  PrimFloat.ltb (randomSample (G := G) i) (HotKeyFraction config) = true ->
  generate (G := G) config i rng
  = Panic (if (KeySize config <=? maxAlloc) && (ValueSize config <=? maxAlloc)
           then DivideByZero else LenOutOfRange).
Proof.
  intros Hk Hv Hn Hhot. unfold generate, make.
  assert ((KeySize config <? 0) = false) as -> by lia.
  assert ((ValueSize config <? 0) = false) as -> by lia. simpl.
  destruct (maxAlloc <? KeySize config) eqn:Ek.
  { assert ((KeySize config <=? maxAlloc) = false) as -> by lia. done. }
  assert ((KeySize config <=? maxAlloc) = true) as -> by lia. simpl.
  destruct (maxAlloc <? ValueSize config) eqn:Ev.
  { assert ((ValueSize config <=? maxAlloc) = false) as -> by lia. done. }
  assert ((ValueSize config <=? maxAlloc) = true) as -> by lia.
  by rewrite Hhot, Hn.
Qed.

(** Induction on a run of the loop: how the trace and the exit are built. *)
Lemma loop_run_ind (P : Z -> list Event -> Exit -> Prop) :
  (forall i, P i [] Running) ->
  (forall i, P i [] ReturnNil) ->
  (forall i err rng rng', generate (G := G) config i rng = ReadError err rng' ->
     P i [Claimed i] (ReturnErr err)) ->
  (forall i p rng, generate (G := G) config i rng = Panic p ->
     P i [Claimed i] (Panicked p)) ->
  (forall i k v rng rng' tr ex,
     generate (G := G) config i rng = Element k v rng' ->
     P (wrap64 (i + 1)) tr ex ->
     P i (Claimed i :: Emitted i k v :: tr) ex) ->
  forall fuel i (rt : T) (rng : R),
    P i (trace (loop (G := G) fuel config i rt rng))
        (exit (loop (G := G) fuel config i rt rng)).
Proof.
  intros Hrun Hnil Herr Hpanic Hstep.
  induction fuel as [| fuel IH]; intros i rt rng; simpl; [apply Hrun |].
  destruct (TryClaim rt i) as [[] rt']; [| apply Hnil].
  destruct (generate config i rng) as [k v rng' | err rng' | p] eqn:Eg; simpl.
  - eapply Hstep; [exact Eg | apply IH].
  - eapply Herr; exact Eg.
  - eapply Hpanic; exact Eg.
Qed.

(** Every emitted element was produced by [generate] for its index. *)
Lemma emitted_generated (fuel : nat) (i0 : Z) (rt : T) (rng0 : R)
    (i : Z) (k v : list Byte.byte) :
  Emitted i k v ∈ trace (loop (G := G) fuel config i0 rt rng0) ->
  exists rng rng', generate (G := G) config i rng = Element k v rng'.
Proof.
  revert fuel i0 rt rng0.
  apply (loop_run_ind (fun _ tr _ =>
    Emitted i k v ∈ tr -> exists rng rng', generate (G := G) config i rng = Element k v rng')).
  - intros _ Hin. by apply elem_of_nil in Hin.
  - intros _ Hin. by apply elem_of_nil in Hin.
  - intros j err rng rng' _ Hin. apply list_elem_of_singleton in Hin. done.
  - intros j p rng _ Hin. apply list_elem_of_singleton in Hin. done.
  - intros j k' v' rng rng' tr ex Hg IH Hin.
    apply elem_of_cons in Hin as [Hin | Hin]; [done |].
    apply elem_of_cons in Hin as [Hin | Hin]; [| by apply IH].
    injection Hin as -> -> ->. eauto.
Qed.

(** C8: in every run of [ProcessElement], every emitted element has a key
    of exactly [KeySize] bytes and a value of exactly [ValueSize] bytes. *)
Theorem emitted_sizes (fuel : nat) (rt : T) (rng : R) (i : Z) (k v : list Byte.byte) :
  Emitted i k v ∈ trace (ProcessElement (G := G) fuel rt config rng) ->
  Z.of_nat (length k) = KeySize config /\ Z.of_nat (length v) = ValueSize config.
Proof.
  intros Hin. apply emitted_generated in Hin as (rng1 & rng2 & Hg).
  by apply generate_lengths in Hg.
Qed.




(** Every emission in the trace comes directly after the claim of its index. *)
Lemma emit_after_claim (fuel : nat) (i0 : Z) (rt : T) (rng0 : R) :
  forall i k v, Emitted i k v ∈ trace (loop (G := G) fuel config i0 rt rng0) ->
    exists pre post,
      trace (loop (G := G) fuel config i0 rt rng0)
      = pre ++ Claimed i :: Emitted i k v :: post.
Proof.
  revert fuel i0 rt rng0.
  apply (loop_run_ind (fun _ tr _ =>
    forall i k v, Emitted i k v ∈ tr ->
      exists pre post, tr = pre ++ Claimed i :: Emitted i k v :: post)).
  - intros _ i k v Hin. by apply elem_of_nil in Hin.
  - intros _ i k v Hin. by apply elem_of_nil in Hin.
  - intros j err rng rng' _ i k v Hin. by apply list_elem_of_singleton in Hin.
  - intros j p rng _ i k v Hin. by apply list_elem_of_singleton in Hin.
  - intros j k' v' rng rng' tr ex _ IH i k v Hin.
    apply elem_of_cons in Hin as [Hin | Hin]; [done |].
    apply elem_of_cons in Hin as [Hin | Hin].
    + injection Hin as -> -> ->. by exists [], tr.
    + destruct (IH _ _ _ Hin) as (pre & post & ->).
      by exists (Claimed j :: Emitted j k' v' :: pre), post.
Qed.

(** The claimed indices are [i0], [i0 + 1], ... and the emitted ones are the
    same, but for the last claimed index when the run stopped on it. *)
Lemma loop_indices (fuel : nat) (i0 : Z) (rt : T) (rng0 : R) :
  min_int64 <= i0 ->
  (forall j, Claimed j ∈ trace (loop (G := G) fuel config i0 rt rng0) -> j < max_int64) ->
  exists n m, 0 <= m /\ m <= n <= m + 1
    /\ claimedIndices (trace (loop (G := G) fuel config i0 rt rng0)) = seqZ i0 n
    /\ emittedIndices (trace (loop (G := G) fuel config i0 rt rng0)) = seqZ i0 m.
Proof.
  revert fuel i0 rt rng0.
  apply (loop_run_ind (fun i tr _ =>
    min_int64 <= i -> (forall j, Claimed j ∈ tr -> j < max_int64) ->
    exists n m, 0 <= m /\ m <= n <= m + 1
      /\ claimedIndices tr = seqZ i n /\ emittedIndices tr = seqZ i m)).
  - intros i _ _. exists 0, 0. repeat split; lia.
  - intros i _ _. exists 0, 0. repeat split; lia.
  - intros i err rng rng' _ _ _. exists 1, 0. repeat split; lia.
  - intros i p rng _ _ _. exists 1, 0. repeat split; lia.
  - intros i k v rng rng' tr ex _ IH Hmin Hmax.
    assert (i < max_int64) as Hi by (apply Hmax, elem_of_cons; by left).
    rewrite wrap64_id in IH by (unfold in_int64, min_int64, max_int64 in *; lia).
    destruct IH as (n & m & Hm & Hnm & Hc & He).
    { unfold min_int64 in *. lia. }
    { intros j Hj. apply Hmax. by do 2 apply list_elem_of_further. }
    exists (n + 1), (m + 1). split; [lia |]. split; [lia |].
    simpl. rewrite Hc, He, !(seqZ_cons i) by lia.
    by replace (Z.pred (n + 1)) with n by lia; replace (Z.pred (m + 1)) with m by lia.
Qed.



(** Under the tracker's contract every claimed index is below the end of
    the restriction the run started with. *)
Lemma claims_below_End `{!RTrackerContract T} (fuel : nat) (i0 : Z) (rt : T) (rng0 : R)
    (j : Z) :
  Claimed j ∈ trace (loop (G := G) fuel config i0 rt rng0) ->
  j < End (GetRestriction rt).
Proof.
  revert i0 rt rng0. induction fuel as [| fuel IH]; intros i0 rt rng0; simpl.
  - intros Hin. by apply elem_of_nil in Hin.
  - destruct (TryClaim rt i0) as [[] rt'] eqn:Ec.
    + pose proof (claim_inside _ _ _ Ec) as Hi.
      pose proof (end_shrinks _ _ _ _ Ec) as He.
      destruct (generate config i0 rng0) as [k v rng' | err rng' | p]; simpl; intros Hin.
      * apply elem_of_cons in Hin as [[= ->] | Hin]; [done |].
        apply elem_of_cons in Hin as [Hin | Hin]; [done |].
        apply IH in Hin. lia.
      * by apply list_elem_of_singleton in Hin as [= ->].
      * by apply list_elem_of_singleton in Hin as [= ->].
    + intros Hin. by apply elem_of_nil in Hin.
Qed.

(** C6: in every run of [ProcessElement] over a tracker that keeps its
    contract, on a restriction of [int64] bounds, every emission comes
    directly after the successful claim of its index; the claimed indices
    are the restriction's start and its successors, one by one, hence
    strictly increasing; and the emitted indices are a prefix of the claimed
    ones, each emitted once. *)
Theorem emissions_follow_claims `{!RTrackerContract T} (fuel : nat) (rt : T) (rng : R) :
  let run := ProcessElement (G := G) fuel rt config rng in
  let start := Start (GetRestriction rt) in
  in_int64 start -> in_int64 (End (GetRestriction rt)) ->
  (forall i k v, Emitted i k v ∈ trace run ->
     exists pre post, trace run = pre ++ Claimed i :: Emitted i k v :: post)
  /\ (exists n m, 0 <= m /\ m <= n <= m + 1
        /\ claimedIndices (trace run) = seqZ start n
        /\ emittedIndices (trace run) = seqZ start m)
  /\ (forall (a b : nat) x y, (a < b)%nat ->
        claimedIndices (trace run) !! a = Some x ->
        claimedIndices (trace run) !! b = Some y -> x < y)
  /\ (forall x, claimedIndices (trace run) !! 0%nat = Some x -> x = start)
  /\ emittedIndices (trace run) `prefix_of` claimedIndices (trace run)
  /\ NoDup (emittedIndices (trace run)).
Proof.
  intros run start Hstart Hend. subst run start. unfold ProcessElement in *.
  destruct (loop_indices fuel (Start (GetRestriction rt)) rt rng)
    as (n & m & Hm & Hnm & Hc & He).
  { apply Hstart. }
  { intros j Hj. apply claims_below_End in Hj. unfold in_int64 in Hend. lia. }
  split; [apply emit_after_claim |].
  split; [by exists n, m |].
  rewrite Hc, He. split; [| split; [| split]].
  - intros a b x y Hab Ha Hb.
    apply lookup_seqZ in Ha, Hb. lia.
  - intros x Hx. apply lookup_seqZ in Hx. lia.
  - exists (seqZ (Start (GetRestriction rt) + m) (n - m)).
    replace n with (m + (n - m)) at 1 by lia.
    apply seqZ_app; lia.
  - apply NoDup_seqZ.
Qed.

(** C4 (the code departs from it): with [NumHotKeys = 0] and buffers of
    sizes that are not negative, when the first index is claimed and its
    sample is below [HotKeyFraction], the run takes the hot-key branch and
    panics on the division by zero, with that index claimed and nothing
    emitted.  (Only when a buffer is larger than the platform lets [make]
    allocate does the run panic before, in [make].) *)
Theorem no_hot_keys_divides_by_zero (fuel : nat) (rt rt' : T) (rng : R) :
  NumHotKeys config = 0 ->
  0 <= KeySize config -> 0 <= ValueSize config ->
  TryClaim rt (Start (GetRestriction rt)) = (true, rt') ->
  PrimFloat.ltb (randomSample (G := G) (Start (GetRestriction rt)))
    (HotKeyFraction config) = true ->
  ProcessElement (G := G) (S fuel) rt config rng
  = mkRun [Claimed (Start (GetRestriction rt))]
      (Panicked (if (KeySize config <=? maxAlloc) && (ValueSize config <=? maxAlloc)
                 then DivideByZero else LenOutOfRange))
      rt' rng.
Proof.
  intros Hn Hk Hv Hclaim Hhot. unfold ProcessElement. simpl. rewrite Hclaim.
  by rewrite (generate_divides_by_zero _ rng Hk Hv Hn Hhot).
Qed.

(** C2 (amended): with [NumHotKeys > 0], for an index whose sample is below
    [HotKeyFraction], the keys emitted for it in any two runs, whatever the
    trackers and the states of [fn.rng], are the same key: the hot key of
    [i % NumHotKeys].  For the indices from 0 on it is one of the
    [NumHotKeys] keys of the pool, so these keys take at most [NumHotKeys]
    values. *)
Theorem hot_keys_deterministic (fuel1 fuel2 : nat) (rt1 rt2 : T) (rng1 rng2 : R)
    (i : Z) (k1 v1 k2 v2 : list Byte.byte) :
  0 < NumHotKeys config ->
  PrimFloat.ltb (randomSample (G := G) i) (HotKeyFraction config) = true ->
  Emitted i k1 v1 ∈ trace (ProcessElement (G := G) fuel1 rt1 config rng1) ->
  Emitted i k2 v2 ∈ trace (ProcessElement (G := G) fuel2 rt2 config rng2) ->
  k1 = k2
  /\ k1 = hotKey (G := G) config (Z.rem i (NumHotKeys config))
  /\ (0 <= i -> k1 ∈ hotKeyPool (G := G) config)
  /\ Z.of_nat (length (hotKeyPool (G := G) config)) = NumHotKeys config.
Proof.
  intros Hn Hhot H1 H2.
  apply emitted_generated in H1 as (r1 & r1' & Hg1).
  apply emitted_generated in H2 as (r2 & r2' & Hg2).
  apply (generate_hot_key _ _ _ _ _ Hhot) in Hg1 as [_ ->].
  apply (generate_hot_key _ _ _ _ _ Hhot) in Hg2 as [_ ->].
  split; [done |]. split; [done |]. split.
  - intros Hi. unfold hotKeyPool. apply list_elem_of_fmap.
    exists (Z.rem i (NumHotKeys config)). split; [done |].
    apply elem_of_seqZ. pose proof (Z.rem_bound_pos i (NumHotKeys config) Hi Hn). lia.
  - unfold hotKeyPool. rewrite length_fmap, length_seqZ. lia.
Qed.


End Process.

(** ** Runs on the offset-range tracker *)

(** The offset-range tracker only grants positions below the end of its
    restriction. *)
Lemma tryClaim_below_End (t t' : Tracker) (pos : Z) :
  tryClaim t pos = (true, t') ->
  pos < End (rest t) /\ claimed t < pos
  /\ t' = mkTracker (rest t) pos false /\ stopped t = false.
Proof.
  unfold tryClaim. destruct (stopped t); [done |].
  destruct ((claimed t <? pos) && (pos <? End (rest t))) eqn:E; [| done].
  intros [= <-]. apply andb_true_iff in E as [E1 E2].
  repeat split; try reflexivity; lia.
Qed.

(** With fuel for one claim more than the restriction has indices left, the
    loop on an offset-range tracker comes to its end. *)
Lemma tracker_loop_terminates `{Platform} `{Rand G} `{Reader R} (config : SourceConfig)
    (fuel : nat) (i : Z) (t : Tracker) (rng : R) :
  in_int64 i -> End (rest t) <= max_int64 ->
  (Z.to_nat (End (rest t) - i) < fuel)%nat ->
  exit (loop (G := G) fuel config i t rng) <> Running.
Proof.
  revert i t rng. induction fuel as [| fuel IH]; intros i t rng Hi Hend Hfuel; [lia |].
  simpl. change (TryClaim t i) with (tryClaim t i).
  destruct (tryClaim t i) as [[] t'] eqn:Ec; [| done].
  apply tryClaim_below_End in Ec as (Hlt & _ & -> & _).
  destruct (generate config i rng) as [k v rng' | err rng' | p]; simpl; try done.
  rewrite wrap64_id by (unfold in_int64, min_int64, max_int64 in *; lia).
  apply IH; simpl.
  - unfold in_int64, min_int64, max_int64 in *. lia.
  - done.
  - lia.
Qed.

Lemma ProcessElement_terminates `{Platform} `{Rand G} `{Reader R} (config : SourceConfig)
    (r : Restriction) (fuel : nat) (rng : R) :
  in_int64 (Start r) -> in_int64 (End r) ->
  (Z.to_nat (size r) < fuel)%nat ->
  exit (ProcessElement (G := G) fuel (CreateTracker r) config rng) <> Running.
Proof.
  intros Hs He Hfuel. unfold ProcessElement.
  apply tracker_loop_terminates; simpl; [done | apply He | done].
Qed.

(** The offset-range tracker keeps the contract, alone and shared with a
    runner that splits. *)
#[global] Instance Tracker_contract : RTrackerContract Tracker.
Proof.
  split.
  - intros t i t' Hc. by apply tryClaim_below_End in Hc as (? & _).
  - intros t i ok t'. simpl. unfold tryClaim.
    destruct (stopped t); [by intros [= _ <-] |].
    destruct ((claimed t <? i) && (i <? End (rest t))); intros [= _ <-]; simpl; lia.
Qed.

Lemma trySplit_End (t : Tracker) (p : Z) : End (rest (trySplit t p)) <= End (rest t).
Proof.
  unfold trySplit.
  destruct (negb (stopped t) && (claimed t <? p) && (p <? End (rest t))) eqn:E;
    simpl; [| lia].
  apply andb_true_iff in E as [_ E]. lia.
Qed.

#[global] Instance SharedTracker_contract : RTrackerContract SharedTracker.
Proof.
  assert (forall s : SharedTracker,
            End (rest match pending s with
                      | Some p :: _ => trySplit (inner s) p
                      | _ => inner s
                      end) <= End (rest (inner s))) as Hsplit.
  { intros s. destruct (pending s) as [| [p |] ps]; try lia. apply trySplit_End. }
  split.
  - intros s i s'. simpl. unfold sharedClaim. specialize (Hsplit s).
    destruct (tryClaim _ i) as [ok t'] eqn:Ec. intros [= -> <-].
    apply tryClaim_below_End in Ec as (? & _). lia.
  - intros s i ok s'. simpl. unfold sharedClaim. specialize (Hsplit s).
    destruct (tryClaim _ i) as [ok' t'] eqn:Ec. intros [= _ <-]. simpl.
    pose proof (end_shrinks (T := Tracker) _ _ _ _ Ec) as He. simpl in He. lia.
Qed.

(** ** Instances of the properties *)

(** Membership in a trace that computes. *)
Ltac in_computed_trace :=
  vm_compute;
  repeat (first [apply list_elem_of_here | apply list_elem_of_further]).

Lemma emitted_sizes_witness :
  exists k v,
    Emitted 1 k v ∈
      trace (ProcessElement (G := Lcg) 10 (CreateTracker (mkRestriction 0 3)) hotConfig
               (mkLcg 7))
    /\ Z.of_nat (length k) = 8 /\ Z.of_nat (length v) = 8.
Proof.
  let tr := eval vm_compute in
      (trace (ProcessElement (G := Lcg) 10 (CreateTracker (mkRestriction 0 3)) hotConfig
                (mkLcg 7))) in
  match tr with
  | _ :: _ :: _ :: Emitted _ ?k ?v :: _ =>
      exists k, v;
      assert (Emitted 1 k v ∈
                trace (ProcessElement (G := Lcg) 10 (CreateTracker (mkRestriction 0 3))
                         hotConfig (mkLcg 7))) as Hin by in_computed_trace;
      split; [exact Hin |];
      exact (emitted_sizes hotConfig 10 (CreateTracker (mkRestriction 0 3)) (mkLcg 7)
               1 k v Hin)
  end.
Defined.

(** A run with a concurrent split: the runner takes the indices from 2 on
    before the second claim, and the run ends after index 1. *)
Lemma emissions_follow_claims_witness :
  let rt := mkShared (CreateTracker (mkRestriction 0 3)) [None; Some 2] in
  let run := ProcessElement (G := Lcg) 10 rt hotConfig (mkLcg 99) in
  exit run = ReturnNil
  /\ claimedIndices (trace run) = [0; 1]
  /\ (forall i k v, Emitted i k v ∈ trace run ->
        exists pre post, trace run = pre ++ Claimed i :: Emitted i k v :: post)
  /\ (exists n m, 0 <= m /\ m <= n <= m + 1
        /\ claimedIndices (trace run) = seqZ 0 n
        /\ emittedIndices (trace run) = seqZ 0 m)
  /\ (forall (a b : nat) x y, (a < b)%nat ->
        claimedIndices (trace run) !! a = Some x ->
        claimedIndices (trace run) !! b = Some y -> x < y)
  /\ (forall x, claimedIndices (trace run) !! 0%nat = Some x -> x = 0)
  /\ emittedIndices (trace run) `prefix_of` claimedIndices (trace run)
  /\ NoDup (emittedIndices (trace run)).
Proof.
  split; [by vm_compute |]. split; [by vm_compute |].
  refine (emissions_follow_claims (G := Lcg) hotConfig 10
            (mkShared (CreateTracker (mkRestriction 0 3)) [None; Some 2]) (mkLcg 99) _ _).
  - by vm_compute.
  - by vm_compute.
Defined.

Lemma no_hot_keys_divides_by_zero_witness :
  validConfig noPoolConfig = true
  /\ Builder.check noPoolConfig = Returns noPoolConfig
  /\ ProcessElement (G := Lcg) 2 (CreateTracker (mkRestriction 0 1)) noPoolConfig (mkLcg 7)
     = mkRun [Claimed 0] (Panicked DivideByZero)
         (mkTracker (mkRestriction 0 1) 0 false) (mkLcg 7).
Proof.
  split; [reflexivity |]. split; [reflexivity |].
  refine (no_hot_keys_divides_by_zero (G := Lcg) noPoolConfig 1
            (CreateTracker (mkRestriction 0 1)) (mkTracker (mkRestriction 0 1) 0 false)
            (mkLcg 7) _ _ _ _ _).
  - reflexivity.
  - simpl; lia.
  - simpl; lia.
  - reflexivity.
  - reflexivity.
Defined.


(** Keys of one byte take at most 256 values: with more hot keys than that,
    two seeds of the pool give the same key, whatever the generator. *)
Lemma hot_pool_collides `{Rand G} (config : SourceConfig) :
  KeySize config = 1 -> 256 < NumHotKeys config ->
  ~ NoDup (hotKeyPool (G := G) config).
Proof.
  intros Hk Hn Hnd.
  assert (forall k, k ∈ hotKeyPool (G := G) config -> exists b, k = [b]) as Hone.
  { intros k Hin. unfold hotKeyPool in Hin.
    apply list_elem_of_fmap in Hin as (r & -> & _).
    assert (length (hotKey (G := G) config r) = 1%nat) as Hlen.
    { unfold hotKey. rewrite overwrite_length, length_replicate, Hk. reflexivity. }
    destruct (hotKey config r) as [| b [| b' k]]; try discriminate. eauto. }
  assert (NoDup (byteCode <$> hotKeyPool (G := G) config)) as Hcodes.
  { apply NoDup_fmap_2_strong; [| done].
    intros k1 k2 H1 H2 Heq.
    destruct (Hone _ H1) as [b1 ->], (Hone _ H2) as [b2 ->]. simpl in Heq.
    pose proof (Byte.of_to_nat b1) as E1. rewrite Heq, Byte.of_to_nat in E1.
    congruence. }
  assert (incl (byteCode <$> hotKeyPool (G := G) config) (seq 0 256)) as Hincl.
  { intros c Hc. apply list_elem_of_In, list_elem_of_fmap in Hc as (k & -> & Hin).
    destruct (Hone _ Hin) as [b ->]. cbn [byteCode].
    apply in_seq. pose proof (Byte.to_nat_bounded b). lia. }
  apply NoDup_ListNoDup in Hcodes.
  pose proof (NoDup_incl_length Hcodes Hincl) as Hlen.
  unfold hotKeyPool in Hlen.
  rewrite !length_fmap, length_seqZ, length_seq in Hlen. lia.
Qed.

(** C2 (as stated, refuted): with keys of one byte and 257 hot keys, a
    configuration within the bounds of every field, the 257 keys of the pool
    are not pairwise distinct. *)
Lemma hot_keys_not_all_distinct :
  validConfig crowdedConfig = true
  /\ Builder.check crowdedConfig = Returns crowdedConfig
  /\ Z.of_nat (length (hotKeyPool (G := Lcg) crowdedConfig)) = NumHotKeys crowdedConfig
  /\ ~ NoDup (hotKeyPool (G := Lcg) crowdedConfig).
Proof.
  split; [reflexivity |]. split; [reflexivity |]. split; [reflexivity |].
  apply hot_pool_collides; [reflexivity | simpl; lia].
Qed.

(** Two runs with different states of [fn.rng], one of them cut short by a
    split: the keys emitted for index 1 are the same hot key. *)
Lemma hot_keys_deterministic_witness :
  exists k v1 v2,
    Emitted 1 k v1 ∈
      trace (ProcessElement (G := Lcg) 10 (mkShared (CreateTracker (mkRestriction 0 3)) [])
               hotConfig (mkLcg 7))
    /\ Emitted 1 k v2 ∈
         trace (ProcessElement (G := Lcg) 10
                  (mkShared (CreateTracker (mkRestriction 0 3)) [None; Some 2])
                  hotConfig (mkLcg 99))
    /\ v1 <> v2
    /\ k = hotKey (G := Lcg) hotConfig (Z.rem 1 2)
    /\ (0 <= 1 -> k ∈ hotKeyPool (G := Lcg) hotConfig)
    /\ Z.of_nat (length (hotKeyPool (G := Lcg) hotConfig)) = 2.
Proof.
  let tr1 := eval vm_compute in
      (trace (ProcessElement (G := Lcg) 10 (mkShared (CreateTracker (mkRestriction 0 3)) [])
                hotConfig (mkLcg 7))) in
  let tr2 := eval vm_compute in
      (trace (ProcessElement (G := Lcg) 10
                (mkShared (CreateTracker (mkRestriction 0 3)) [None; Some 2])
                hotConfig (mkLcg 99))) in
  match tr1 with
  | _ :: _ :: _ :: Emitted _ ?k ?v1 :: _ =>
      match tr2 with
      | _ :: _ :: _ :: Emitted _ _ ?v2 :: _ =>
          exists k, v1, v2;
          assert (Emitted 1 k v1 ∈
                    trace (ProcessElement (G := Lcg) 10
                             (mkShared (CreateTracker (mkRestriction 0 3)) [])
                             hotConfig (mkLcg 7))) as H1 by in_computed_trace;
          assert (Emitted 1 k v2 ∈
                    trace (ProcessElement (G := Lcg) 10
                             (mkShared (CreateTracker (mkRestriction 0 3)) [None; Some 2])
                             hotConfig (mkLcg 99))) as H2 by in_computed_trace;
          assert (0 < NumHotKeys hotConfig) as Hn by (simpl; lia);
          assert (PrimFloat.ltb (randomSample (G := Lcg) 1) (HotKeyFraction hotConfig)
                  = true) as Hhot by (vm_compute; reflexivity);
          split; [exact H1 |]; split; [exact H2 |]; split; [discriminate |];
          exact (proj2 (hot_keys_deterministic (G := Lcg) hotConfig 10 10
                   (mkShared (CreateTracker (mkRestriction 0 3)) [])
                   (mkShared (CreateTracker (mkRestriction 0 3)) [None; Some 2])
                   (mkLcg 7) (mkLcg 99) 1 k v1 k v2
                   Hn Hhot H1 H2))
      end
  end.
Defined.

(** * Further properties *)

(** ** Comparisons of floats *)

Lemma SFcompare_antisym (x y : SpecFloat.spec_float) :
  SpecFloat.SFcompare y x = option_map CompOpp (SpecFloat.SFcompare x y).
Proof.
  destruct x as [sx | sx | | sx mx ex], y as [sy | sy | | sy my ey]; simpl;
    try reflexivity; try (destruct sx; reflexivity); try (destruct sy; reflexivity);
    try (destruct sx, sy; reflexivity).
  destruct sx, sy; simpl; try reflexivity;
    rewrite (Z.compare_antisym ex ey); destruct (ex ?= ey); simpl; try reflexivity;
    rewrite ?CompOpp_involutive, Pos.compare_cont_antisym; reflexivity.
Qed.

Lemma SFcompare_refl (x : SpecFloat.spec_float) :
  SpecFloat.SFcompare x x
  = match x with SpecFloat.S754_nan => None | _ => Some Eq end.
Proof.
  destruct x as [s | s | | s m e]; simpl; try reflexivity; try (destruct s; reflexivity).
  destruct s; rewrite Z.compare_refl, Pos.compare_cont_refl; reflexivity.
Qed.

Lemma SFcompare_None (x y : SpecFloat.spec_float) :
  SpecFloat.SFcompare x y = None <-> x = SpecFloat.S754_nan \/ y = SpecFloat.S754_nan.
Proof.
  destruct x as [sx | sx | | sx mx ex], y as [sy | sy | | sy my ey]; simpl;
    split; intros H; try discriminate; auto;
    try (destruct H; discriminate).
Qed.

Lemma is_nan_spec (x : float) :
  PrimFloat.is_nan x = true <-> FloatOps.Prim2SF x = SpecFloat.S754_nan.
Proof.
  unfold PrimFloat.is_nan. rewrite FloatAxioms.eqb_spec. unfold SpecFloat.SFeqb.
  rewrite SFcompare_refl.
  destruct (FloatOps.Prim2SF x); simpl; split; congruence.
Qed.

(** [x < y] is false exactly when [y <= x] or one of the two is not a
    number. *)
Lemma ltb_false_iff (x y : float) :
  PrimFloat.ltb x y = false
  <-> PrimFloat.leb y x = true \/ PrimFloat.is_nan x = true \/ PrimFloat.is_nan y = true.
Proof.
  rewrite FloatAxioms.ltb_spec, FloatAxioms.leb_spec, !is_nan_spec.
  unfold SpecFloat.SFltb, SpecFloat.SFleb.
  rewrite (SFcompare_antisym (FloatOps.Prim2SF x) (FloatOps.Prim2SF y)).
  pose proof (SFcompare_None (FloatOps.Prim2SF x) (FloatOps.Prim2SF y)) as HN.
  destruct (SpecFloat.SFcompare (FloatOps.Prim2SF x) (FloatOps.Prim2SF y)) as [[] |];
    simpl; split; intros H; auto; try discriminate.
  - destruct H as [H | H]; [discriminate |]. apply HN in H. discriminate.
  - right. by apply HN.
Qed.

Lemma ltb_nan_r (x y : float) : PrimFloat.is_nan y = true -> PrimFloat.ltb x y = false.
Proof. intros Hy. apply ltb_false_iff. auto. Qed.

(** ** Build, further *)

(** The checks of [Build] pass exactly on the configurations that have the
    four sizes at least 1, [NumHotKeys] at least 0 and a hot key fraction
    between 0 and 1 or not a number. *)
Lemma check_accepts_iff (c0 c : SourceConfig) :
  Builder.check c0 = Returns c
  <-> c = c0
      /\ 1 <= InitialSplits c /\ 1 <= NumElements c /\ 1 <= KeySize c /\ 1 <= ValueSize c
      /\ 0 <= NumHotKeys c
      /\ (inBounds FHotKeyFraction c = true \/ PrimFloat.is_nan (HotKeyFraction c) = true).
Proof.
  unfold Builder.check.
  assert (PrimFloat.ltb (HotKeyFraction c0) 0 || PrimFloat.ltb 1 (HotKeyFraction c0)
          = false
          <-> inBounds FHotKeyFraction c0 = true
              \/ PrimFloat.is_nan (HotKeyFraction c0) = true) as Hf.
  { simpl. rewrite orb_false_iff, andb_true_iff, !ltb_false_iff.
    change (PrimFloat.is_nan 0) with false. change (PrimFloat.is_nan 1) with false.
    intuition congruence. }
  destruct (InitialSplits c0 <=? 0) eqn:E1;
    [split; [discriminate | intros (-> & ?); lia] |].
  destruct (NumElements c0 <=? 0) eqn:E2;
    [split; [discriminate | intros (-> & ?); lia] |].
  destruct (KeySize c0 <=? 0) eqn:E3;
    [split; [discriminate | intros (-> & ?); lia] |].
  destruct (ValueSize c0 <=? 0) eqn:E4;
    [split; [discriminate | intros (-> & ?); lia] |].
  destruct (NumHotKeys c0 <? 0) eqn:E5;
    [split; [discriminate | intros (-> & ?); lia] |].
  destruct (PrimFloat.ltb (HotKeyFraction c0) 0
            || PrimFloat.ltb 1 (HotKeyFraction c0)) eqn:E6.
  - split; [discriminate |]. intros (-> & _ & _ & _ & _ & _ & H6).
    apply Hf in H6. discriminate.
  - split.
    + intros [= <-]. repeat split; try lia. by apply Hf.
    + intros (-> & _). reflexivity.
Qed.

(** X1: [Build] returns exactly when the four sizes are at least 1,
    [NumHotKeys] is at least 0 and [HotKeyFraction] lies between 0 and 1 or
    is not a number, and it then returns the builder's configuration
    unchanged.  So every configuration within the documented bounds is
    accepted, and the only accepted one outside of them has a NaN as its hot
    key fraction. *)
Theorem Build_accepts_iff (h : heap) (b : loc) (s : SourceConfigBuilder)
    (c : SourceConfig) :
  h !! b = Some s ->
  Builder.Build b h = Returns c
  <-> c = cfg s
      /\ 1 <= InitialSplits c /\ 1 <= NumElements c /\ 1 <= KeySize c /\ 1 <= ValueSize c
      /\ 0 <= NumHotKeys c
      /\ (inBounds FHotKeyFraction c = true \/ PrimFloat.is_nan (HotKeyFraction c) = true).
Proof.
  intros Hb. unfold Builder.Build. rewrite Hb. apply check_accepts_iff.
Qed.

(** A configuration that [Build] returns although it is out of bounds:
    the hot key fraction is a NaN. *)
Lemma Build_accepts_iff_witness :
  let c := setHotKeyFraction PrimFloat.nan defaultConfig in
  Builder.Build 1%positive (<[1%positive := mkBuilder c]> ∅) = Returns c
  /\ validConfig c = false.
Proof.
  split; [| reflexivity].
  apply (Build_accepts_iff (<[1%positive := mkBuilder (setHotKeyFraction PrimFloat.nan defaultConfig)]> ∅)
           1%positive (mkBuilder (setHotKeyFraction PrimFloat.nan defaultConfig))).
  - apply lookup_insert_eq.
  - simpl. repeat split; try lia. right. reflexivity.
Defined.

(** X2: when one of the four size fields is below 1, [Build] panics, and the
    message names the first such field in the order [InitialSplits],
    [NumElements], [KeySize], [ValueSize] and reports the value of that same
    field. *)
Theorem Build_names_first_violation (h : heap) (b : loc) (s : SourceConfigBuilder)
    (f : Field) :
  h !! b = Some s ->
  firstViolation (cfg s) = Some f ->
  Builder.Build b h
  = Panics (Sprintf ("SourceConfig." ++ goName f ++ " must be >= 1. Got: %v")
              (fieldValue f (cfg s))).
Proof.
  intros Hb. unfold Builder.Build. rewrite Hb.
  unfold firstViolation, Builder.check. simpl.
  destruct (InitialSplits (cfg s) <=? 0) eqn:E1.
  { assert ((1 <=? InitialSplits (cfg s)) = false) as -> by lia. by intros [= <-]. }
  assert ((1 <=? InitialSplits (cfg s)) = true) as -> by lia. simpl.
  destruct (NumElements (cfg s) <=? 0) eqn:E2.
  { assert ((1 <=? NumElements (cfg s)) = false) as -> by lia. by intros [= <-]. }
  assert ((1 <=? NumElements (cfg s)) = true) as -> by lia. simpl.
  destruct (KeySize (cfg s) <=? 0) eqn:E3.
  { assert ((1 <=? KeySize (cfg s)) = false) as -> by lia. by intros [= <-]. }
  assert ((1 <=? KeySize (cfg s)) = true) as -> by lia. simpl.
  destruct (ValueSize (cfg s) <=? 0) eqn:E4.
  { assert ((1 <=? ValueSize (cfg s)) = false) as -> by lia. by intros [= <-]. }
  assert ((1 <=? ValueSize (cfg s)) = true) as -> by lia. simpl. discriminate.
Qed.

(** With no elements and no key bytes, the message is about [NumElements],
    which [Build] tests before [KeySize]. *)
Lemma Build_names_first_violation_witness :
  let c := setKeySize 0 (setNumElements (-3) defaultConfig) in
  firstViolation c = Some FNumElements
  /\ Builder.Build 1%positive (<[1%positive := mkBuilder c]> ∅)
     = Panics (Sprintf "SourceConfig.NumElements must be >= 1. Got: %v" (VInt64 (-3))).
Proof.
  split; [reflexivity |].
  exact (Build_names_first_violation
           (<[1%positive := mkBuilder (setKeySize 0 (setNumElements (-3) defaultConfig))]> ∅)
           1%positive (mkBuilder (setKeySize 0 (setNumElements (-3) defaultConfig)))
           FNumElements (lookup_insert_eq _ _ _) eq_refl).
Defined.

(** ** The builder, further *)

(** X3: [DefaultSourceConfig] makes a new builder each time.  Two builders
    made one after the other are different pointers, the builders that
    existed before are untouched, and a setter called on the second leaves
    the first with the defaults, which [Build] accepts. *)
Theorem DefaultSourceConfig_independent (h : heap) (c : SetterCall) :
  let b1 := fst (DefaultSourceConfig h) in
  let h1 := snd (DefaultSourceConfig h) in
  let b2 := fst (DefaultSourceConfig h1) in
  let h2 := snd (DefaultSourceConfig h1) in
  b1 <> b2
  /\ h !! b1 = None
  /\ (forall b s, h !! b = Some s -> h2 !! b = Some s)
  /\ fst (call c b2 h2) = Returns b2
  /\ observe (snd (call c b2 h2)) b1 = Some defaultConfig
  /\ Builder.Build b1 (snd (call c b2 h2)) = Returns defaultConfig.
Proof.
  unfold DefaultSourceConfig. simpl.
  set (b1 := fresh (dom h)).
  set (h1 := <[b1 := mkBuilder defaultConfig]> h).
  set (b2 := fresh (dom h1)).
  set (h2 := <[b2 := mkBuilder defaultConfig]> h1).
  assert (h !! b1 = None) as H1 by (apply not_elem_of_dom, is_fresh).
  assert (h1 !! b2 = None) as H2 by (apply not_elem_of_dom, is_fresh).
  assert (b1 <> b2) as Hne.
  { intros Heq. rewrite <- Heq in H2. unfold h1 in H2.
    by rewrite lookup_insert_eq in H2. }
  assert (h2 !! b2 = Some (mkBuilder defaultConfig)) as Hb2 by apply lookup_insert_eq.
  destruct (call_spec c h2 b2 _ Hb2) as (c' & Hc & _). rewrite Hc. simpl.
  assert ((<[b2 := mkBuilder c']> h2) !! b1 = Some (mkBuilder defaultConfig)) as Hb1.
  { rewrite lookup_insert_ne by done. unfold h2. rewrite lookup_insert_ne by done.
    apply lookup_insert_eq. }
  repeat split; try done.
  - intros b s Hb.
    assert (b1 <> b) as Hn1 by congruence.
    assert (b2 <> b) as Hn2.
    { intros <-. unfold h1 in H2. rewrite lookup_insert_ne in H2 by done. congruence. }
    unfold h2, h1. by rewrite !lookup_insert_ne.
  - unfold observe. by rewrite Hb1.
  - unfold Builder.Build. by rewrite Hb1.
Qed.

Lemma callAll_fields (cs : list SetterCall) (h : heap) (b : loc) (s : SourceConfigBuilder) :
  h !! b = Some s ->
  fst (callAll cs b h) = Returns b
  /\ (exists c', snd (callAll cs b h) !! b = Some (mkBuilder c')
       /\ forall f, fieldValue f c' = default (fieldValue f (cfg s)) (lastSet f cs))
  /\ (forall other, other <> b -> snd (callAll cs b h) !! other = h !! other).
Proof.
  revert h s. induction cs as [| c cs IH]; intros h s Hb; simpl.
  - split; [done |]. split; [| done]. exists (cfg s). by destruct s.
  - destruct (call_spec c h b s Hb) as (c1 & -> & Ht & Hf).
    destruct (IH (<[b := mkBuilder c1]> h) (mkBuilder c1) (lookup_insert_eq _ _ _))
      as (Hr & (c' & Hc' & Hfields) & Hother).
    split; [done |]. split.
    + exists c'. split; [done |]. intros f. rewrite Hfields. simpl.
      destruct (lastSet f cs); [done |]. simpl.
      destruct (decide (target c = f)) as [<- | Hne]; simpl; [done |].
      apply Hf. congruence.
    + intros other Hne. rewrite Hother by done. by rewrite lookup_insert_ne.
Qed.

(** X4: a chain of setter calls on an allocated builder returns the builder
    it started from; afterwards every field holds the argument of the last
    call of the chain that set it, or the value it had before when no call
    set it, and [Build] runs its checks on exactly that configuration.  The
    order of calls that set different fields does not matter, and builders
    at other addresses are unchanged. *)
Theorem setter_chain_last_call_wins (cs : list SetterCall) (h : heap) (b : loc)
    (s : SourceConfigBuilder) :
  h !! b = Some s ->
  fst (callAll cs b h) = Returns b
  /\ (exists c', observe (snd (callAll cs b h)) b = Some c'
       /\ (forall f, fieldValue f c' = default (fieldValue f (cfg s)) (lastSet f cs))
       /\ Builder.Build b (snd (callAll cs b h)) = Builder.check c')
  /\ (forall other, other <> b ->
        observe (snd (callAll cs b h)) other = observe h other).
Proof.
  intros Hb. destruct (callAll_fields cs h b s Hb) as (Hr & (c' & Hc' & Hf) & Ho).
  split; [done |]. split.
  - exists c'. unfold observe, Builder.Build. rewrite Hc'. by repeat split.
  - intros other Hne. unfold observe. by rewrite Ho.
Qed.

(** The usage example of the source:
    [DefaultSourceConfig().NumElements(5000).InitialSplits(2).Build()]. *)
Lemma setter_chain_last_call_wins_witness :
  let b := fst (DefaultSourceConfig ∅) in
  let h := snd (DefaultSourceConfig ∅) in
  let cs := [CallNumElements 5000; CallInitialSplits 2] in
  fst (callAll cs b h) = Returns b
  /\ (exists c', observe (snd (callAll cs b h)) b = Some c'
       /\ (forall f, fieldValue f c' = default (fieldValue f defaultConfig) (lastSet f cs))
       /\ Builder.Build b (snd (callAll cs b h)) = Builder.check c')
  /\ (forall other, other <> b -> observe (snd (callAll cs b h)) other = observe h other).
Proof.
  exact (setter_chain_last_call_wins [CallNumElements 5000; CallInitialSplits 2]
           (snd (DefaultSourceConfig ∅)) (fst (DefaultSourceConfig ∅))
           (mkBuilder defaultConfig) (lookup_insert_eq _ _ _)).
Defined.

Example usage_example_of_the_source :
  Builder.Build (fst (DefaultSourceConfig ∅))
    (snd (callAll [CallNumElements 5000; CallInitialSplits 2]
            (fst (DefaultSourceConfig ∅)) (snd (DefaultSourceConfig ∅))))
  = Returns {| NumElements := 5000; InitialSplits := 2; KeySize := 8; ValueSize := 8;
               NumHotKeys := 0; HotKeyFraction := 0 |}.
Proof. reflexivity. Qed.

(** ** BuildFromJSON, further *)






(** X7: decoding gives back what the document says.  For a configuration
    whose integers fit in 64 bits and whose hot key fraction is finite, the
    document that lists its six fields under their keys makes
    [BuildFromJSON] return that very configuration and leave it in the
    builder, whatever the builder held before. *)
Theorem BuildFromJSON_document (h : heap) (b : loc) (s : SourceConfigBuilder)
    (c : SourceConfig) :
  h !! b = Some s ->
  in_int64 (NumElements c) -> in_int64 (InitialSplits c) -> in_int64 (KeySize c) ->
  in_int64 (ValueSize c) -> in_int64 (NumHotKeys c) ->
  isFinite (HotKeyFraction c) = true ->
  BuildFromJSON b (document c) h = (Returns c, <[b := mkBuilder c]> h).
Proof.
  intros Hb H1 H2 H3 H4 H5 H6.
  assert (forall z, in_int64 z -> in_int64b z = true) as Hin
    by (intros z; unfold in_int64, in_int64b; lia).
  unfold BuildFromJSON. rewrite Hb. unfold document, Decode, decodeMembers, decodeMember.
  cbn [fst snd]. rewrite !fieldOfKey_jsonTag. unfold storeField.
  rewrite (Hin _ H1). cbn [NumElements InitialSplits KeySize ValueSize NumHotKeys
    HotKeyFraction setNumElements setInitialSplits setKeySize setValueSize setNumHotKeys
    setHotKeyFraction].
  rewrite (Hin _ H2), (Hin _ H3), (Hin _ H4), (Hin _ H5), H6.
  by destruct c.
Qed.

Lemma BuildFromJSON_document_witness :
  let h := <[1%positive := mkBuilder noPoolConfig]> (∅ : heap) in
  BuildFromJSON 1%positive (document hotConfig) h
  = (Returns hotConfig, <[1%positive := mkBuilder hotConfig]> h).
Proof.
  apply (BuildFromJSON_document (<[1%positive := mkBuilder noPoolConfig]> ∅) 1%positive
           (mkBuilder noPoolConfig) hotConfig).
  - apply lookup_insert_eq.
  - by vm_compute.
  - by vm_compute.
  - by vm_compute.
  - by vm_compute.
  - by vm_compute.
  - reflexivity.
Defined.

(** X8: [BuildFromJSON] leaves the decoded configuration in the builder, so
    that a call of [Build] on the same builder afterwards runs the six
    checks on it: after an accepted document, [Build] returns the decoded
    configuration when it is within the bounds and panics when one of the
    five integer fields is out of them. *)
Theorem Build_after_BuildFromJSON (h : heap) (b : loc) (s : SourceConfigBuilder)
    (doc : Document) :
  h !! b = Some s ->
  accepted doc = true ->
  exists c, fst (BuildFromJSON b doc h) = Returns c
    /\ Builder.Build b (snd (BuildFromJSON b doc h)) = Builder.check c
    /\ (validConfig c = true ->
        Builder.Build b (snd (BuildFromJSON b doc h)) = Returns c)
    /\ (forall f, f <> FHotKeyFraction -> inBounds f c = false ->
        exists m, Builder.Build b (snd (BuildFromJSON b doc h)) = Panics m).
Proof.
  intros Hb Hacc.
  destruct (BuildFromJSON_spec h b s doc Hb) as (Hobs & Hret & _).
  set (c := fst (Decode doc (cfg s))) in *.
  exists c. split; [by apply Hret |].
  assert (snd (BuildFromJSON b doc h) !! b = Some (mkBuilder c)) as Hb'.
  { unfold observe in Hobs.
    destruct (snd (BuildFromJSON b doc h) !! b) as [[c0] |]; simpl in Hobs; congruence. }
  assert (Builder.Build b (snd (BuildFromJSON b doc h)) = Builder.check c) as HB
    by (unfold Builder.Build; by rewrite Hb').
  split; [done |]. rewrite HB. split.
  - intros Hv. apply check_accepts_iff.
    unfold validConfig in Hv. simpl in Hv.
    repeat (apply andb_true_iff in Hv as [? Hv]).
    simpl. repeat split; try lia. left.
    match goal with H : _ && _ = true |- _ => exact H end.
  - intros f Hf Hout.
    destruct (Builder.check c) as [c0 | m] eqn:Ec; [| eauto].
    exfalso.
    apply check_accepts_iff in Ec as (-> & ? & ? & ? & ? & ? & _).
    simpl in *. destruct f; simpl in Hout; try lia. done.
Qed.

Lemma Build_after_BuildFromJSON_witness :
  let b := fst (DefaultSourceConfig ∅) in
  let h := snd (DefaultSourceConfig ∅) in
  let doc := Value (JObject [("key_size"%string, JNumber (IntLit (-1)))]) in
  exists c, fst (BuildFromJSON b doc h) = Returns c
    /\ Builder.Build b (snd (BuildFromJSON b doc h)) = Builder.check c
    /\ (validConfig c = true ->
        Builder.Build b (snd (BuildFromJSON b doc h)) = Returns c)
    /\ (forall f, f <> FHotKeyFraction -> inBounds f c = false ->
        exists m, Builder.Build b (snd (BuildFromJSON b doc h)) = Panics m).
Proof.
  exact (Build_after_BuildFromJSON (snd (DefaultSourceConfig ∅))
           (fst (DefaultSourceConfig ∅)) (mkBuilder defaultConfig)
           (Value (JObject [("key_size"%string, JNumber (IntLit (-1)))]))
           (lookup_insert_eq _ _ _) eq_refl).
Defined.

(** ** ProcessElement, further *)

Section ProcessFurther.

Context `{HP : Platform} {G R T : Type} `{HG : Rand G} `{HR : Reader R} `{HT : RTracker T}.
Variable config : SourceConfig.

(** The ways the body of the loop panics: in [make], on a length that is
    negative or above [maxAlloc], and on the division by zero. *)
Lemma generate_Panic_inv (i : Z) (rng : R) (p : RuntimePanic) :
  generate (G := G) config i rng = Panic p ->
  (p = LenOutOfRange
   /\ (KeySize config < 0 \/ maxAlloc < KeySize config
       \/ ValueSize config < 0 \/ maxAlloc < ValueSize config))
  \/ (p = DivideByZero /\ 0 <= KeySize config <= maxAlloc
       /\ 0 <= ValueSize config <= maxAlloc
       /\ NumHotKeys config = 0 /\ hot (G := G) config i = true).
Proof.
  unfold generate, hot.
  destruct (make (KeySize config)) as [key |] eqn:Ek.
  2: { apply make_None_iff in Ek. destruct (make (ValueSize config));
       intros [= <-]; left; split; [done | lia | done | lia]. }
  destruct (make (ValueSize config)) as [val |] eqn:Ev.
  2: { apply make_None_iff in Ev. intros [= <-]. left. split; [done | lia]. }
  assert (0 <= KeySize config <= maxAlloc) by (apply make_Some_iff; eauto).
  assert (0 <= ValueSize config <= maxAlloc) by (apply make_Some_iff; eauto).
  destruct (PrimFloat.ltb _ _) eqn:Eh.
  - destruct (NumHotKeys config =? 0) eqn:En.
    + intros [= <-]. right. repeat split; try done; lia.
    + destruct (Read _ _) as [[bs [err |]] g']; [done |].
      unfold fillValue. by destruct (Read rng _) as [[bs' [err |]] rng'].
  - destruct (Read rng _) as [[bs [err |]] rng1]; [done |].
    unfold fillValue. by destruct (Read rng1 _) as [[bs' [err |]] rng'].
Qed.

(** An error of the body is the error of one of its reads. *)
Lemma generate_ReadError_inv (i : Z) (rng rng' : R) (err : error) :
  generate (G := G) config i rng = ReadError err rng' ->
  (exists (g : G) n, snd (fst (Read g n)) = Some err)
  \/ (exists (r : R) n, snd (fst (Read r n)) = Some err).
Proof.
  unfold generate.
  destruct (make (KeySize config)) as [key |]; [| done].
  destruct (make (ValueSize config)) as [val |]; [| done].
  assert (forall k (r : R), fillValue k val r = ReadError err rng' ->
            exists (r0 : R) n, snd (fst (Read r0 n)) = Some err) as Hfill.
  { intros k r. unfold fillValue.
    destruct (Read r (length val)) as [[bs [e |]] r1] eqn:Er; [| done].
    intros [= -> _]. exists r, (length val). by rewrite Er. }
  destruct (PrimFloat.ltb _ _).
  - destruct (NumHotKeys config =? 0); [done |].
    destruct (Read (Seed _) (length key)) as [[bs [e |]] g'] eqn:Eg.
    + intros [= -> _]. left. eexists _, _. by rewrite Eg.
    + intros Hf. right. by apply Hfill in Hf.
  - destruct (Read rng (length key)) as [[bs [e |]] r1] eqn:Er.
    + intros [= -> _]. right. eexists _, _. by rewrite Er.
    + intros Hf. right. by apply Hfill in Hf.
Qed.

(** The loop on a configuration with a negative size, once a claim is
    granted. *)
Lemma generate_negative_size (i : Z) (rng : R) :
  KeySize config < 0 \/ ValueSize config < 0 ->
  generate (G := G) config i rng = Panic LenOutOfRange.
Proof.
  intros Hneg. unfold generate.
  destruct (make (KeySize config)) as [key |] eqn:Ek; [| by destruct (make _)].
  destruct (make (ValueSize config)) as [val |] eqn:Ev; [| done].
  assert (0 <= KeySize config <= maxAlloc) by (apply make_Some_iff; eauto).
  assert (0 <= ValueSize config <= maxAlloc) by (apply make_Some_iff; eauto).
  lia.
Qed.

(** The same with a size above what [make] can allocate. *)
Lemma generate_oversize (i : Z) (rng : R) :
  maxAlloc < KeySize config \/ maxAlloc < ValueSize config ->
  generate (G := G) config i rng = Panic LenOutOfRange.
Proof.
  intros Hbig. unfold generate.
  destruct (make (KeySize config)) as [key |] eqn:Ek; [| by destruct (make _)].
  destruct (make (ValueSize config)) as [val |] eqn:Ev; [| done].
  assert (0 <= KeySize config <= maxAlloc) by (apply make_Some_iff; eauto).
  assert (0 <= ValueSize config <= maxAlloc) by (apply make_Some_iff; eauto).
  lia.
Qed.

Lemma loop_panic_inv (fuel : nat) (i0 : Z) (rt : T) (rng0 : R) :
  forall p, exit (loop (G := G) fuel config i0 rt rng0) = Panicked p ->
    exists pre i, trace (loop (G := G) fuel config i0 rt rng0) = pre ++ [Claimed i]
      /\ ((p = LenOutOfRange
           /\ (KeySize config < 0 \/ maxAlloc < KeySize config
               \/ ValueSize config < 0 \/ maxAlloc < ValueSize config))
          \/ (p = DivideByZero /\ 0 <= KeySize config <= maxAlloc
               /\ 0 <= ValueSize config <= maxAlloc
               /\ NumHotKeys config = 0 /\ hot (G := G) config i = true)).
Proof.
  revert fuel i0 rt rng0.
  apply (loop_run_ind config (fun _ tr ex =>
    forall p, ex = Panicked p ->
      exists pre i, tr = pre ++ [Claimed i]
        /\ ((p = LenOutOfRange
             /\ (KeySize config < 0 \/ maxAlloc < KeySize config
                 \/ ValueSize config < 0 \/ maxAlloc < ValueSize config))
            \/ (p = DivideByZero /\ 0 <= KeySize config <= maxAlloc
                 /\ 0 <= ValueSize config <= maxAlloc
                 /\ NumHotKeys config = 0 /\ hot (G := G) config i = true)))); try done.
  - intros i p rng Hg p' [= <-]. exists [], i. split; [done |].
    by apply generate_Panic_inv in Hg.
  - intros i k v rng rng' tr ex _ IH p Hex.
    destruct (IH p Hex) as (pre & j & -> & Hp).
    by exists (Claimed i :: Emitted i k v :: pre), j.
Qed.

Lemma loop_error_inv (fuel : nat) (i0 : Z) (rt : T) (rng0 : R) :
  forall err, exit (loop (G := G) fuel config i0 rt rng0) = ReturnErr err ->
    (exists (g : G) n, snd (fst (Read g n)) = Some err)
    \/ (exists (r : R) n, snd (fst (Read r n)) = Some err).
Proof.
  revert fuel i0 rt rng0.
  apply (loop_run_ind config (fun _ tr ex =>
    forall err, ex = ReturnErr err ->
      (exists (g : G) n, snd (fst (Read g n)) = Some err)
      \/ (exists (r : R) n, snd (fst (Read r n)) = Some err))); try done.
  intros i err rng rng' Hg err' [= <-]. by apply generate_ReadError_inv in Hg.
Qed.

Lemma loop_claims_emitted (fuel : nat) (i0 : Z) (rt : T) (rng0 : R) :
  exit (loop (G := G) fuel config i0 rt rng0) = ReturnNil
  \/ exit (loop (G := G) fuel config i0 rt rng0) = Running ->
  claimedIndices (trace (loop (G := G) fuel config i0 rt rng0))
  = emittedIndices (trace (loop (G := G) fuel config i0 rt rng0)).
Proof.
  revert fuel i0 rt rng0.
  apply (loop_run_ind config (fun _ tr ex =>
    ex = ReturnNil \/ ex = Running -> claimedIndices tr = emittedIndices tr));
    try done.
  - intros i err rng rng' _ [|]; done.
  - intros i p rng _ [|]; done.
  - intros j k v rng rng' tr ex _ IH Hex. simpl. by rewrite IH.
Qed.

(** X10: with a negative [KeySize] or [ValueSize] (a configuration [Build]
    rejects and [BuildFromJSON] returns), [ProcessElement] panics in [make]
    as soon as the first claim is granted: the index is claimed, nothing is
    emitted and no random byte is read. *)
Theorem negative_size_panics (fuel : nat) (rt rt' : T) (rng : R) :
  KeySize config < 0 \/ ValueSize config < 0 ->
  TryClaim rt (Start (GetRestriction rt)) = (true, rt') ->
  ProcessElement (G := G) (S fuel) rt config rng
  = mkRun [Claimed (Start (GetRestriction rt))] (Panicked LenOutOfRange) rt' rng.
Proof.
  intros Hneg Hclaim. unfold ProcessElement. simpl. rewrite Hclaim.
  by rewrite (generate_negative_size _ rng Hneg).
Qed.

(** X9: with a [KeySize] or a [ValueSize] above what [make] can allocate
    on the platform (the bounds of [Build] have no upper limit, so [Build]
    accepts such sizes), [ProcessElement] panics in [make] as soon as the
    first claim is granted: the index is claimed, nothing is emitted and
    [fn.rng] is not read. *)
Theorem oversize_panics (fuel : nat) (rt rt' : T) (rng : R) :
  maxAlloc < KeySize config \/ maxAlloc < ValueSize config ->
  TryClaim rt (Start (GetRestriction rt)) = (true, rt') ->
  ProcessElement (G := G) (S fuel) rt config rng
  = mkRun [Claimed (Start (GetRestriction rt))] (Panicked LenOutOfRange) rt' rng.
Proof.
  intros Hbig Hclaim. unfold ProcessElement. simpl. rewrite Hclaim.
  by rewrite (generate_oversize _ rng Hbig).
Qed.

(** X11: an error that [ProcessElement] returns is the error of a [Read],
    of the generator or of [fn.rng], passed on unchanged; the function makes
    no error of its own. *)
Theorem errors_come_from_reads (fuel : nat) (rt : T) (rng : R) (err : error) :
  exit (ProcessElement (G := G) fuel rt config rng) = ReturnErr err ->
  (exists (g : G) n, snd (fst (Read g n)) = Some err)
  \/ (exists (r : R) n, snd (fst (Read r n)) = Some err).
Proof. apply loop_error_inv. Qed.

(** X12: on a configuration whose sizes [make] can allocate (from 0 to
    [maxAlloc]) and with at least one hot key, and with readers that never
    fail, [ProcessElement] neither panics nor returns an error: whenever it
    is observed, it has emitted exactly one element for each index it
    claimed, and when it comes to its end it returns nil. *)
Theorem safe_run_emits_every_claim (fuel : nat) (rt : T) (rng : R) :
  infallible G -> infallible R ->
  0 <= KeySize config <= maxAlloc -> 0 <= ValueSize config <= maxAlloc ->
  NumHotKeys config <> 0 ->
  (exit (ProcessElement (G := G) fuel rt config rng) = ReturnNil
   \/ exit (ProcessElement (G := G) fuel rt config rng) = Running)
  /\ claimedIndices (trace (ProcessElement (G := G) fuel rt config rng))
     = emittedIndices (trace (ProcessElement (G := G) fuel rt config rng)).
Proof.
  intros HiG HiR Hk Hv Hn.
  assert (exit (ProcessElement (G := G) fuel rt config rng) = ReturnNil
          \/ exit (ProcessElement (G := G) fuel rt config rng) = Running) as Hex.
  { destruct (exit (ProcessElement (G := G) fuel rt config rng)) as [| err | p |] eqn:E;
      auto; exfalso.
    - apply loop_error_inv in E as [(g & n & He) | (r & n & He)].
      + by rewrite HiG in He.
      + by rewrite HiR in He.
    - apply loop_panic_inv in E as (pre & i & _ & [[_ H] | (_ & _ & _ & H & _)]); lia. }
  split; [done |]. by apply loop_claims_emitted.
Qed.

(** When no index is hot the body of the loop does not look at
    [NumHotKeys]. *)
Lemma generate_not_hot (n : Z) (i : Z) (rng : R) :
  hot (G := G) config i = false ->
  generate (G := G) (setNumHotKeys n config) i rng = generate (G := G) config i rng.
Proof. unfold hot, generate. simpl. by intros ->. Qed.

Lemma loop_not_hot (n : Z) (fuel : nat) (i0 : Z) (rt : T) (rng0 : R) :
  (forall i, hot (G := G) config i = false) ->
  loop (G := G) fuel (setNumHotKeys n config) i0 rt rng0
  = loop (G := G) fuel config i0 rt rng0.
Proof.
  intros Hcold. revert i0 rt rng0.
  induction fuel as [| fuel IH]; intros i0 rt rng0; simpl; [done |].
  destruct (TryClaim rt i0) as [[] rt']; [| done].
  rewrite (generate_not_hot n i0 rng0 (Hcold i0)).
  destruct (generate config i0 rng0); [| done | done]. by rewrite IH.
Qed.

(** X13: a hot key fraction that is not a number, which [Build] accepts,
    switches the hot keys off: no index is hot, so the run is the same
    whatever [NumHotKeys] is, zero included. *)
Theorem nan_fraction_disables_hot_keys (n : Z) (fuel : nat) (rt : T) (rng : R) :
  PrimFloat.is_nan (HotKeyFraction config) = true ->
  (forall i, hot (G := G) config i = false)
  /\ ProcessElement (G := G) fuel rt (setNumHotKeys n config) rng
     = ProcessElement (G := G) fuel rt config rng.
Proof.
  intros Hnan.
  assert (forall i, hot (G := G) config i = false) as Hcold
    by (intros i; by apply ltb_nan_r).
  split; [done |]. unfold ProcessElement. by apply loop_not_hot.
Qed.

End ProcessFurther.

Lemma Lcg_infallible : infallible Lcg.
Proof. intros g n. simpl. by destruct (lcgBytes n g). Qed.

(** The configuration that [BuildFromJSON] returns for [{"key_size": -1}]. *)
Lemma negative_size_panics_witness :
  fst (BuildFromJSON (fst (DefaultSourceConfig ∅))
         (Value (JObject [("key_size"%string, JNumber (IntLit (-1)))]))
         (snd (DefaultSourceConfig ∅))) = Returns negativeKeyConfig
  /\ ProcessElement (G := Lcg) 3 (CreateTracker (mkRestriction 0 2)) negativeKeyConfig
       (mkLcg 7)
     = mkRun [Claimed 0] (Panicked LenOutOfRange)
         (mkTracker (mkRestriction 0 2) 0 false) (mkLcg 7).
Proof.
  split; [reflexivity |].
  refine (negative_size_panics (G := Lcg) negativeKeyConfig 2
            (CreateTracker (mkRestriction 0 2)) (mkTracker (mkRestriction 0 2) 0 false)
            (mkLcg 7) _ _).
  - left. simpl. lia.
  - reflexivity.
Defined.

(** Keys of 2^62 bytes pass [Build] and panic at the first claim. *)
Lemma oversize_panics_witness :
  Builder.check hugeKeyConfig = Returns hugeKeyConfig
  /\ ProcessElement (G := Lcg) 3 (CreateTracker (mkRestriction 0 2)) hugeKeyConfig
       (mkLcg 7)
     = mkRun [Claimed 0] (Panicked LenOutOfRange)
         (mkTracker (mkRestriction 0 2) 0 false) (mkLcg 7).
Proof.
  split; [reflexivity |].
  refine (oversize_panics (G := Lcg) hugeKeyConfig 2
            (CreateTracker (mkRestriction 0 2)) (mkTracker (mkRestriction 0 2) 0 false)
            (mkLcg 7) _ _).
  - left. simpl. lia.
  - reflexivity.
Defined.

Lemma errors_come_from_reads_witness :
  let run := ProcessElement (G := Lcg) 5 (CreateTracker (mkRestriction 0 2))
               defaultConfig (mkEntropy 24) in
  exit run = ReturnErr "entropy source exhausted"%string
  /\ ((exists (g : Lcg) n, snd (fst (Read g n)) = Some "entropy source exhausted"%string)
      \/ (exists (r : Entropy) n,
            snd (fst (Read r n)) = Some "entropy source exhausted"%string)).
Proof.
  split; [reflexivity |].
  exact (errors_come_from_reads (G := Lcg) defaultConfig 5
           (CreateTracker (mkRestriction 0 2)) (mkEntropy 24)
           "entropy source exhausted"%string eq_refl).
Defined.

Lemma safe_run_emits_every_claim_witness :
  let run := ProcessElement (G := Lcg) 10
               (mkShared (CreateTracker (mkRestriction 0 3)) [None; Some 2])
               hotConfig (mkLcg 99) in
  claimedIndices (trace run) = [0; 1]
  /\ (exit run = ReturnNil \/ exit run = Running)
  /\ claimedIndices (trace run) = emittedIndices (trace run).
Proof.
  split; [reflexivity |].
  refine (safe_run_emits_every_claim (G := Lcg) hotConfig 10
            (mkShared (CreateTracker (mkRestriction 0 3)) [None; Some 2]) (mkLcg 99)
            Lcg_infallible Lcg_infallible _ _ _).
  - simpl; lia.
  - simpl; lia.
  - simpl; lia.
Defined.

Lemma nan_fraction_disables_hot_keys_witness :
  let config := setHotKeyFraction PrimFloat.nan defaultConfig in
  Builder.check config = Returns config
  /\ (forall i, hot (G := Lcg) config i = false)
  /\ ProcessElement (G := Lcg) 4 (CreateTracker (mkRestriction 0 3))
       (setNumHotKeys 5 config) (mkLcg 7)
     = ProcessElement (G := Lcg) 4 (CreateTracker (mkRestriction 0 3)) config (mkLcg 7).
Proof.
  split; [reflexivity |].
  exact (nan_fraction_disables_hot_keys (G := Lcg)
           (setHotKeyFraction PrimFloat.nan defaultConfig) 5 4
           (CreateTracker (mkRestriction 0 3)) (mkLcg 7) eq_refl).
Defined.

(** ** Complete runs on the offset-range tracker *)

(** With readers that never fail and a configuration with sizes that [make]
    can allocate and some hot key, the body of the loop gives an element. *)
Lemma generate_safe `{Platform} `{Rand G} `{Reader R} (config : SourceConfig) (i : Z) (rng : R) :
  infallible G -> infallible R ->
  0 <= KeySize config <= maxAlloc -> 0 <= ValueSize config <= maxAlloc ->
  NumHotKeys config <> 0 ->
  exists k v rng', generate (G := G) config i rng = Element k v rng'.
Proof.
  intros HiG HiR Hk Hv Hn.
  destruct (generate (G := G) config i rng) as [k v rng' | err rng' | p] eqn:Eg; [eauto | |].
  - exfalso. apply generate_ReadError_inv in Eg as [(g & n & He) | (r & n & He)].
    + by rewrite HiG in He.
    + by rewrite HiR in He.
  - exfalso. apply generate_Panic_inv in Eg as [[_ Hneg] | (_ & _ & _ & Hzero & _)]; lia.
Qed.

Lemma tracker_loop_exhausts `{Platform} `{Rand G} `{Reader R} (config : SourceConfig)
    (fuel : nat) (i : Z) (t : Tracker) (rng : R) :
  infallible G -> infallible R ->
  0 <= KeySize config <= maxAlloc -> 0 <= ValueSize config <= maxAlloc ->
  NumHotKeys config <> 0 ->
  stopped t = false -> claimed t < i -> min_int64 <= i ->
  i <= End (rest t) -> End (rest t) <= max_int64 ->
  (Z.to_nat (End (rest t) - i) < fuel)%nat ->
  exit (loop (G := G) fuel config i t rng) = ReturnNil
  /\ claimedIndices (trace (loop (G := G) fuel config i t rng)) = seqZ i (End (rest t) - i)
  /\ emittedIndices (trace (loop (G := G) fuel config i t rng)) = seqZ i (End (rest t) - i)
  /\ stopped (finalTracker (loop (G := G) fuel config i t rng)) = true.
Proof.
  intros HiG HiR Hk Hv Hn. revert i t rng.
  induction fuel as [| fuel IH]; intros i t rng Hs Hc Hmin Hle Hmax Hfuel; [lia |].
  simpl. change (TryClaim t i) with (tryClaim t i). unfold tryClaim. rewrite Hs.
  assert ((claimed t <? i) = true) as -> by lia. simpl.
  destruct (i <? End (rest t)) eqn:Elt.
  - apply Z.ltb_lt in Elt.
    destruct (generate_safe config i rng HiG HiR Hk Hv Hn) as (k & v & rng' & ->).
    simpl. rewrite wrap64_id by (unfold in_int64; lia).
    destruct (IH (i + 1) (mkTracker (rest t) i false) rng') as (He & Hcl & Hem & Hst);
      simpl; try lia; try done.
    rewrite He, Hcl, Hem, Hst. rewrite (seqZ_cons i) by lia.
    replace (Z.succ i) with (i + 1) by lia.
    replace (Z.pred (End (rest t) - i)) with (End (rest t) - (i + 1)) by lia.
    done.
  - apply Z.ltb_ge in Elt. assert (End (rest t) - i = 0) as -> by lia. done.
Qed.

Lemma chain_concat {A : Type} (F : Restriction -> list Z) (a b : Z) (l : list Restriction) :
  chain a l b ->
  (forall s, s ∈ l -> F s = seqZ (Start s) (size s)) ->
  concat (F <$> l) = seqZ a (b - a).
Proof.
  revert a. induction l as [| s l IH]; intros a Hc HF.
  - simpl in *. subst. by rewrite Z.sub_diag.
  - destruct Hc as (Hs & Hlt & Hc). rewrite fmap_cons, concat_cons, (IH _ Hc).
    + rewrite HF by (apply elem_of_cons; by left).
      pose proof (chain_le _ _ _ Hc). unfold size.
      replace (b - a) with ((End s - Start s) + (b - End s)) by lia.
      rewrite seqZ_app by lia. subst a. do 2 f_equal. lia.
    + intros s' Hin. apply HF, elem_of_cons. by right.
Qed.

Lemma EvenSplits_length (r : Restriction) (num : Z) :
  1 <= num -> 1 <= size r ->
  Z.of_nat (length (EvenSplits r num)) = Z.min num (size r).
Proof.
  intros Hnum Hsz.
  destruct (Z.lt_ge_cases (size r) num) as [Hlt | Hge].
  - pose proof (EvenSplits_chain r num Hnum Hsz) as Hc.
    rewrite (chain_unit_length _ _ _ Hc).
    + unfold size in *. lia.
    + intros s Hin. by apply (EvenSplits_sizes r num s Hnum Hsz).
  - unfold EvenSplits. destruct (num <=? 1) eqn:E; [simpl; lia |].
    apply Z.leb_gt in E. rewrite forallb_filter_id.
    + rewrite length_fmap, length_seqZ. lia.
    + apply forallb_forall. intros s Hin.
      apply list_elem_of_In, list_elem_of_fmap in Hin as (i & -> & Hi).
      apply elem_of_seqZ in Hi.
      pose proof (piece_size r num i ltac:(lia) ltac:(lia) ltac:(lia)) as Hp.
      assert (1 <= size r / num) by (apply Z.div_le_lower_bound; lia).
      apply Z.ltb_lt. lia.
Qed.

Lemma CreateTracker_run `{Platform} `{Rand G} `{Reader R} (config : SourceConfig)
    (r : Restriction) (fuel : nat) (rng : R) :
  infallible G -> infallible R ->
  0 <= KeySize config <= maxAlloc -> 0 <= ValueSize config <= maxAlloc ->
  NumHotKeys config <> 0 ->
  in_int64 (Start r) -> in_int64 (End r) -> Start r <= End r ->
  (Z.to_nat (size r) < fuel)%nat ->
  exit (ProcessElement (G := G) fuel (CreateTracker r) config rng) = ReturnNil
  /\ claimedIndices (trace (ProcessElement (G := G) fuel (CreateTracker r) config rng))
     = seqZ (Start r) (size r)
  /\ emittedIndices (trace (ProcessElement (G := G) fuel (CreateTracker r) config rng))
     = seqZ (Start r) (size r)
  /\ stopped (finalTracker (ProcessElement (G := G) fuel (CreateTracker r) config rng))
     = true.
Proof.
  intros HiG HiR Hk Hv Hn Hs He Hle Hfuel. unfold ProcessElement, in_int64 in *.
  apply (tracker_loop_exhausts config fuel (Start r) (CreateTracker r) rng);
    simpl; try done; lia.
Qed.

(** X14: a complete run on a fresh offset-range tracker.  With readers that
    never fail and a configuration with sizes that [make] can allocate (from
    0 to [maxAlloc]) and some hot key, [ProcessElement] on the tracker that
    [CreateTracker] makes for
    a restriction of [int64] bounds claims every index of the restriction in
    increasing order, emits one element for each, returns nil, and leaves
    the tracker stopped.  (The tracker is the model of the offset-range
    tracker given above.) *)
Theorem ProcessElement_exhausts `{Platform} `{Rand G} `{Reader R} (config : SourceConfig)
    (r : Restriction) (fuel : nat) (rng : R) :
  infallible G -> infallible R ->
  0 <= KeySize config <= maxAlloc -> 0 <= ValueSize config <= maxAlloc ->
  NumHotKeys config <> 0 ->
  in_int64 (Start r) -> in_int64 (End r) -> Start r <= End r ->
  (Z.to_nat (size r) < fuel)%nat ->
  let run := ProcessElement (G := G) fuel (CreateTracker r) config rng in
  exit run = ReturnNil
  /\ claimedIndices (trace run) = seqZ (Start r) (size r)
  /\ emittedIndices (trace run) = seqZ (Start r) (size r)
  /\ stopped (finalTracker run) = true.
Proof.
  intros HiG HiR Hk Hv Hn Hs He Hle Hfuel. by apply CreateTracker_run.
Qed.

Lemma ProcessElement_exhausts_witness :
  let run := ProcessElement (G := Lcg) 4 (CreateTracker (mkRestriction 5 8)) hotConfig
               (mkLcg 7) in
  exit run = ReturnNil
  /\ claimedIndices (trace run) = seqZ 5 3
  /\ emittedIndices (trace run) = seqZ 5 3
  /\ stopped (finalTracker run) = true.
Proof.
  refine (ProcessElement_exhausts (G := Lcg) hotConfig (mkRestriction 5 8) 4 (mkLcg 7)
            Lcg_infallible Lcg_infallible _ _ _ _ _ _ _).
  - simpl; lia.
  - simpl; lia.
  - simpl; lia.
  - by vm_compute.
  - by vm_compute.
  - simpl; lia.
  - unfold size; simpl; lia.
Defined.

(** X15: no element is dropped and none is produced twice by the initial
    split.  For a configuration within the bounds, with sizes that [make]
    can allocate (at most [maxAlloc]) and some hot key, the complete runs
    of [ProcessElement] on the ranges that [SplitRestriction] returns for
    the initial restriction, each on a tracker of its own and with any
    state of [fn.rng], emit between them one element for each index from 0
    to [NumElements - 1], in this order when the ranges are taken in order.
    ([EvenSplits] and the tracker are the models given above.) *)
Theorem split_runs_cover_all_indices `{Platform} `{Rand G} `{Reader R} (config : SourceConfig)
    (fuel : nat) (rngs : Restriction -> R) :
  infallible G -> infallible R ->
  1 <= NumElements config <= max_int64 -> 1 <= InitialSplits config ->
  0 <= KeySize config <= maxAlloc -> 0 <= ValueSize config <= maxAlloc ->
  NumHotKeys config <> 0 ->
  (Z.to_nat (NumElements config) < fuel)%nat ->
  concat ((fun s => emittedIndices
                      (trace (ProcessElement (G := G) fuel (CreateTracker s) config (rngs s))))
          <$> SplitRestriction config (CreateInitialRestriction config))
  = seqZ 0 (NumElements config).
Proof.
  intros HiG HiR HN HS Hk Hv Hn Hfuel. unfold SplitRestriction.
  set (r := CreateInitialRestriction config).
  assert (1 <= size r) as Hsz by (unfold size; simpl; lia).
  pose proof (EvenSplits_chain r _ HS Hsz) as Hc.
  change (Start r) with 0 in Hc. change (End r) with (NumElements config) in Hc.
  rewrite (chain_concat (A := Z) _ 0 (NumElements config) _ Hc).
  - f_equal. lia.
  - intros s Hin. destruct (chain_bounds _ _ _ _ Hc Hin) as (Hlo & Hlt & Hend).
    apply (CreateTracker_run config s fuel (rngs s)); try done.
    + unfold in_int64, min_int64, max_int64 in *. lia.
    + unfold in_int64, min_int64, max_int64 in *. lia.
    + lia.
    + unfold size. lia.
Qed.

(** Ten elements in three splits, each range processed with a generator of
    its own. *)
Lemma split_runs_cover_all_indices_witness :
  let config := setNumElements 10 (setInitialSplits 3 hotConfig) in
  Builder.check config = Returns config
  /\ concat ((fun s => emittedIndices
                         (trace (ProcessElement (G := Lcg) 11 (CreateTracker s) config
                                   (mkLcg (Start s)))))
             <$> SplitRestriction config (CreateInitialRestriction config))
     = seqZ 0 10.
Proof.
  split; [reflexivity |].
  refine (split_runs_cover_all_indices (G := Lcg)
            (setNumElements 10 (setInitialSplits 3 hotConfig)) 11
            (fun s => mkLcg (Start s)) Lcg_infallible Lcg_infallible _ _ _ _ _ _).
  - by vm_compute.
  - simpl; lia.
  - simpl; lia.
  - simpl; lia.
  - simpl; lia.
  - simpl; lia.
Defined.

(** X16: [SplitRestriction] on any restriction that is not empty, not only
    the initial one: for [InitialSplits >= 1] it returns as many ranges as
    asked for, or as many as the restriction has indices when that is less;
    an index lies in one of them exactly when it lies in the restriction,
    and none of them is empty.  ([EvenSplits] is the model given above.) *)
Theorem SplitRestriction_count (config : SourceConfig) (r : Restriction) :
  1 <= size r -> 1 <= InitialSplits config ->
  Z.of_nat (length (SplitRestriction config r)) = Z.min (InitialSplits config) (size r)
  /\ (forall x, (exists s, s ∈ SplitRestriction config r /\ contains s x) <-> contains r x)
  /\ (forall s, s ∈ SplitRestriction config r -> 1 <= size s).
Proof.
  intros Hsz HS. unfold SplitRestriction. split; [by apply EvenSplits_length |]. split.
  - intros x. exact (chain_covers _ _ _ x (EvenSplits_chain r _ HS Hsz)).
  - intros s Hin. by apply (EvenSplits_sizes r _ s HS Hsz).
Qed.

(** The remainder from 4 to 11 of a restriction, in 3 and in 20 splits. *)
Lemma SplitRestriction_count_witness :
  SplitRestriction (setInitialSplits 3 defaultConfig) (mkRestriction 4 11)
  = [mkRestriction 4 6; mkRestriction 6 8; mkRestriction 8 11]
  /\ Z.of_nat (length (SplitRestriction (setInitialSplits 20 defaultConfig)
                         (mkRestriction 4 11))) = Z.min 20 7.
Proof.
  split; [reflexivity |].
  refine (proj1 (SplitRestriction_count (setInitialSplits 20 defaultConfig)
                   (mkRestriction 4 11) _ _)).
  - unfold size; simpl; lia.
  - simpl; lia.
Defined.
